(** * The [Threshold] pipeline filter of Mayavi

    A shallow embedding of [enthought/mayavi/filters/threshold.py]: the
    [Threshold] object is a record, its methods are functions from states to
    results, and everything the object does to the outside world (running a
    tvtk algorithm, firing [data_changed], assigning [outputs]) is appended
    to an event log carried by the state.

    The Traits library, tvtk and the base class [Filter] are not part of
    the file that is embedded.  What is used of them is stated where it is
    modelled:
    - assigning a trait stores the value and calls the static handler
      [_<name>_changed] when the stored value changes; an assignment of the
      value the trait already has calls nothing;
    - [self.set(x=v, trait_change_notify=False)] stores without calling
      any handler;
    - assigning an [Event] trait ([data_changed]) fires on every assignment;
    - whether a [Range] trait accepts a value is decided by a predicate
      that is a parameter of the whole development, and so is what
      reading such a trait gives: the two thresholds have bounds that
      move ([_data_min], [_data_max]), and a read brings the stored value
      inside the bounds of the moment;
    - an exception raised by a method propagates to its caller, as in
      plain Python; an exception that leaves a change handler is caught
      and logged by Traits, and the assignment that called the handler
      returns. *)

From Stdlib Require Import ZArith.
From stdpp Require Import base option list strings gmap.

(** ** Exceptions and results *)

Inductive Exn := IndexError | ValueError | TraitError.

Inductive Result (A : Type) :=
| Ok (a : A)
| Raise (e : Exn).
Arguments Ok {A} a.
Arguments Raise {A} e.

#[export] Instance Result_ret : MRet Result := fun _ a => Ok a.
#[export] Instance Result_bind : MBind Result := fun _ _ f r =>
  match r with
  | Ok a => f a
  | Raise e => Raise e
  end.

(** [l[i]] of Python for a non-negative literal index. *)
Definition index {A} (l : list A) (i : nat) : Result A :=
  match l !! i with
  | Some x => Ok x
  | None => Raise IndexError
  end.

(** [a, b = l] of Python. *)
Definition unpack2 {A} (l : list A) : Result (A * A) :=
  match l with
  | [a; b] => Ok (a, b)
  | _ => Raise ValueError
  end.

(** ** The filter type *)

Inductive FilterType := cells | points.

#[export] Instance FilterType_eq_dec : EqDecision FilterType.
Proof. solve_decision. Defined.

(** The two tvtk algorithm objects the filter owns, [self._threshold]
    (a [tvtk.Threshold]) and [self._threshold_points] (a
    [tvtk.ThresholdPoints]), by reference. *)
Inductive AlgoRef := Ref_threshold | Ref_threshold_points.

#[export] Instance AlgoRef_eq_dec : EqDecision AlgoRef.
Proof. solve_decision. Defined.

(** [self.outputs] holds [fil.output] objects; an algorithm owns its
    output object and rewrites it in place on [update()], so a reference
    to it names its owner. *)
Inductive OutputRef := OutputOf (fil : AlgoRef).

(** A tvtk data array, as far as the filter looks at it. *)
Record DataArray (V : Type) := { range : V * V }.
Arguments range {V} _.

(** What the filter asks of the code around it.  [V] is the type of
    scalars, which are only stored, compared and handed on; [Dataset] is
    the type of upstream dataset objects and [Geometry] of what an
    algorithm produces. *)
Class Collaborators (V Dataset Geometry : Type) := {
  (** [input.point_data.scalars] and [input.cell_data.scalars]; [None] is
      Python's [None] *)
  point_data_scalars : Dataset → option (DataArray V);
  cell_data_scalars : Dataset → option (DataArray V);
  (** the geometry engine: what executing the given algorithm on its
      input with its two bounds leaves in its output object *)
  engine : AlgoRef → option Dataset → V → V → Geometry;
  (** the check of [Range(low='_data_min', high='_data_max')]:
      [in_range low high v] *)
  in_range : V → V → V → bool;
  (** what reading such a trait gives: [range_read low high v] is the
      stored value [v] brought inside [low] and [high] *)
  range_read : V → V → V → V;
  (** a value that passes the check is read back as it is *)
  range_read_accepted low high v :
    in_range low high v = true → range_read low high v = v
}.

Section Threshold.

Context {V : Type} `{EqDecision V} {Dataset Geometry : Type}.
Context `{!Collaborators V Dataset Geometry}.

(** ** tvtk algorithm objects ([tvtk.Threshold], [tvtk.ThresholdPoints]) *)

Record Algo := {
  alg_input : option Dataset;
  alg_lower : V;
  alg_upper : V;
  alg_output : Geometry
}.

(** [fil.input = d] *)
Definition set_input (d : Dataset) (a : Algo) : Algo :=
  {| alg_input := Some d; alg_lower := alg_lower a;
     alg_upper := alg_upper a; alg_output := alg_output a |}.

(** [fil.threshold_between(lo, hi)] *)
Definition threshold_between (lo hi : V) (a : Algo) : Algo :=
  {| alg_input := alg_input a; alg_lower := lo;
     alg_upper := hi; alg_output := alg_output a |}.

(** [fil.update()]: one execution of the algorithm [k]. *)
Definition update (k : AlgoRef) (a : Algo) : Algo :=
  {| alg_input := alg_input a; alg_lower := alg_lower a;
     alg_upper := alg_upper a;
     alg_output := engine k (alg_input a) (alg_lower a) (alg_upper a) |}.

(** ** Events *)

Inductive Event :=
| EvUpdate (fil : AlgoRef)
    (** [fil.update()] was called *)
| EvDataChanged (seen : list Geometry)
    (** [self.data_changed = True]; [seen] is what [self.outputs] shows to
        a listener at that moment *)
| EvSetOutputs (outs : list OutputRef)
    (** [self._set_outputs(outs)] *)
| EvException (e : Exn)
    (** Traits caught [e] leaving a change handler and logged it *).

(** ** The object *)

Record Threshold := {
  inputs : list (list Dataset);
    (** [self.inputs]; an input node is represented by its [outputs] *)
  outputs : list OutputRef;
  filter_type : FilterType;
  lower_threshold : V;
  upper_threshold : V;
  auto_reset_lower : bool;
  auto_reset_upper : bool;
  _data_min : V;
  _data_max : V;
  _threshold : Algo;
  _threshold_points : Algo;
  _first : bool;
  log : list Event
    (** what the object has done so far, oldest first *)
}.

(** Field updates: [with_f x st] is [st] after [self.f = x] has stored [x]
    (storing only; handlers are called by the assignments below). *)

Definition with_outputs (x : list OutputRef) (st : Threshold) : Threshold :=
  {| inputs := inputs st; outputs := x;
     filter_type := filter_type st; lower_threshold := lower_threshold st;
     upper_threshold := upper_threshold st;
     auto_reset_lower := auto_reset_lower st;
     auto_reset_upper := auto_reset_upper st; _data_min := _data_min st;
     _data_max := _data_max st; _threshold := _threshold st;
     _threshold_points := _threshold_points st; _first := _first st;
     log := log st |}.

Definition with_filter_type (x : FilterType) (st : Threshold) : Threshold :=
  {| inputs := inputs st; outputs := outputs st;
     filter_type := x; lower_threshold := lower_threshold st;
     upper_threshold := upper_threshold st;
     auto_reset_lower := auto_reset_lower st;
     auto_reset_upper := auto_reset_upper st; _data_min := _data_min st;
     _data_max := _data_max st; _threshold := _threshold st;
     _threshold_points := _threshold_points st; _first := _first st;
     log := log st |}.

Definition with_lower_threshold (x : V) (st : Threshold) : Threshold :=
  {| inputs := inputs st; outputs := outputs st;
     filter_type := filter_type st; lower_threshold := x;
     upper_threshold := upper_threshold st;
     auto_reset_lower := auto_reset_lower st;
     auto_reset_upper := auto_reset_upper st; _data_min := _data_min st;
     _data_max := _data_max st; _threshold := _threshold st;
     _threshold_points := _threshold_points st; _first := _first st;
     log := log st |}.

Definition with_upper_threshold (x : V) (st : Threshold) : Threshold :=
  {| inputs := inputs st; outputs := outputs st;
     filter_type := filter_type st; lower_threshold := lower_threshold st;
     upper_threshold := x; auto_reset_lower := auto_reset_lower st;
     auto_reset_upper := auto_reset_upper st; _data_min := _data_min st;
     _data_max := _data_max st; _threshold := _threshold st;
     _threshold_points := _threshold_points st; _first := _first st;
     log := log st |}.

Definition with_auto_reset_lower (x : bool) (st : Threshold) : Threshold :=
  {| inputs := inputs st; outputs := outputs st;
     filter_type := filter_type st; lower_threshold := lower_threshold st;
     upper_threshold := upper_threshold st; auto_reset_lower := x;
     auto_reset_upper := auto_reset_upper st; _data_min := _data_min st;
     _data_max := _data_max st; _threshold := _threshold st;
     _threshold_points := _threshold_points st; _first := _first st;
     log := log st |}.

Definition with_auto_reset_upper (x : bool) (st : Threshold) : Threshold :=
  {| inputs := inputs st; outputs := outputs st;
     filter_type := filter_type st; lower_threshold := lower_threshold st;
     upper_threshold := upper_threshold st;
     auto_reset_lower := auto_reset_lower st;
     auto_reset_upper := x; _data_min := _data_min st;
     _data_max := _data_max st; _threshold := _threshold st;
     _threshold_points := _threshold_points st; _first := _first st;
     log := log st |}.

Definition with_data_min (x : V) (st : Threshold) : Threshold :=
  {| inputs := inputs st; outputs := outputs st;
     filter_type := filter_type st; lower_threshold := lower_threshold st;
     upper_threshold := upper_threshold st;
     auto_reset_lower := auto_reset_lower st;
     auto_reset_upper := auto_reset_upper st; _data_min := x;
     _data_max := _data_max st; _threshold := _threshold st;
     _threshold_points := _threshold_points st; _first := _first st;
     log := log st |}.

Definition with_data_max (x : V) (st : Threshold) : Threshold :=
  {| inputs := inputs st; outputs := outputs st;
     filter_type := filter_type st; lower_threshold := lower_threshold st;
     upper_threshold := upper_threshold st;
     auto_reset_lower := auto_reset_lower st;
     auto_reset_upper := auto_reset_upper st; _data_min := _data_min st;
     _data_max := x; _threshold := _threshold st;
     _threshold_points := _threshold_points st; _first := _first st;
     log := log st |}.

Definition with_threshold (x : Algo) (st : Threshold) : Threshold :=
  {| inputs := inputs st; outputs := outputs st;
     filter_type := filter_type st; lower_threshold := lower_threshold st;
     upper_threshold := upper_threshold st;
     auto_reset_lower := auto_reset_lower st;
     auto_reset_upper := auto_reset_upper st; _data_min := _data_min st;
     _data_max := _data_max st; _threshold := x;
     _threshold_points := _threshold_points st; _first := _first st;
     log := log st |}.

Definition with_threshold_points (x : Algo) (st : Threshold) : Threshold :=
  {| inputs := inputs st; outputs := outputs st;
     filter_type := filter_type st; lower_threshold := lower_threshold st;
     upper_threshold := upper_threshold st;
     auto_reset_lower := auto_reset_lower st;
     auto_reset_upper := auto_reset_upper st; _data_min := _data_min st;
     _data_max := _data_max st; _threshold := _threshold st;
     _threshold_points := x; _first := _first st;
     log := log st |}.

Definition with_first (x : bool) (st : Threshold) : Threshold :=
  {| inputs := inputs st; outputs := outputs st;
     filter_type := filter_type st; lower_threshold := lower_threshold st;
     upper_threshold := upper_threshold st;
     auto_reset_lower := auto_reset_lower st;
     auto_reset_upper := auto_reset_upper st; _data_min := _data_min st;
     _data_max := _data_max st; _threshold := _threshold st;
     _threshold_points := _threshold_points st; _first := x;
     log := log st |}.

Definition with_log (x : list Event) (st : Threshold) : Threshold :=
  {| inputs := inputs st; outputs := outputs st;
     filter_type := filter_type st; lower_threshold := lower_threshold st;
     upper_threshold := upper_threshold st;
     auto_reset_lower := auto_reset_lower st;
     auto_reset_upper := auto_reset_upper st; _data_min := _data_min st;
     _data_max := _data_max st; _threshold := _threshold st;
     _threshold_points := _threshold_points st; _first := _first st;
     log := x |}.

(** ** Reaching the owned algorithm objects *)

Definition algo (fil : AlgoRef) (st : Threshold) : Algo :=
  match fil with
  | Ref_threshold => _threshold st
  | Ref_threshold_points => _threshold_points st
  end.

Definition with_algo (fil : AlgoRef) (a : Algo) (st : Threshold) : Threshold :=
  match fil with
  | Ref_threshold => with_threshold a st
  | Ref_threshold_points => with_threshold_points a st
  end.

(** What a reference held in [self.outputs] shows when it is looked at. *)
Definition deref (st : Threshold) (o : OutputRef) : Geometry :=
  match o with
  | OutputOf fil => alg_output (algo fil st)
  end.

(** [self.outputs] as a listener sees it. *)
Definition view (st : Threshold) : list Geometry :=
  deref st <$> outputs st.

Definition emit (e : Event) (st : Threshold) : Threshold :=
  with_log (log st ++ [e]) st.

(** [fil.input = d], [fil.threshold_between(lo, hi)] and [fil.update()]
    on an algorithm the object owns. *)
Definition fil_set_input (fil : AlgoRef) (d : Dataset) (st : Threshold)
  : Threshold :=
  with_algo fil (set_input d (algo fil st)) st.

Definition fil_threshold_between (fil : AlgoRef) (lo hi : V) (st : Threshold)
  : Threshold :=
  with_algo fil (threshold_between lo hi (algo fil st)) st.

Definition fil_update (fil : AlgoRef) (st : Threshold) : Threshold :=
  emit (EvUpdate fil) (with_algo fil (update fil (algo fil st)) st).

(** [self.data_changed = True]: [data_changed] is an [Event] trait. *)
Definition fire_data_changed (st : Threshold) : Threshold :=
  emit (EvDataChanged (view st)) st.

(** Modelled from the spec: [_set_outputs] is a method of the base class
    [Filter], which is not in the embedded file.  The spec says of it only
    that [outputs] becomes the list it is given. *)
Definition _set_outputs (new_outputs : list OutputRef) (st : Threshold)
  : Threshold :=
  emit (EvSetOutputs new_outputs) (with_outputs new_outputs st).

(** [self.inputs[0].outputs[0]] *)
Definition upstream (st : Threshold) : Result Dataset :=
  node ← index (inputs st) 0;
  index node 0.

(** ** The methods of [Threshold] *)

Definition _get_threshold_filter (st : Threshold) : AlgoRef :=
  match filter_type st with
  | cells => Ref_threshold
  | points => Ref_threshold_points
  end.

(** Reading [self.lower_threshold] and [self.upper_threshold]: the fields
    [lower_threshold] and [upper_threshold] of the record are the stored
    values, and a read brings them inside the cached range of the
    moment. *)
Definition read_lower_threshold (st : Threshold) : V :=
  range_read (_data_min st) (_data_max st) (lower_threshold st).

Definition read_upper_threshold (st : Threshold) : V :=
  range_read (_data_min st) (_data_max st) (upper_threshold st).

Definition _lower_threshold_changed (new_value : V) (st : Threshold)
  : Result Threshold :=
  let fil := _get_threshold_filter st in
  let st :=
    fil_threshold_between fil new_value (read_upper_threshold st) st in
  let st := fil_update fil st in
  Ok (fire_data_changed st).

Definition _upper_threshold_changed (new_value : V) (st : Threshold)
  : Result Threshold :=
  let fil := _get_threshold_filter st in
  let st :=
    fil_threshold_between fil (read_lower_threshold st) new_value st in
  let st := fil_update fil st in
  Ok (fire_data_changed st).

(** Assigning the two [Range] traits.  [notify] is [false] for
    [self.set(..., trait_change_notify=False)] and [true] for a plain
    assignment. *)
Definition assign_lower_threshold (notify : bool) (v : V) (st : Threshold)
  : Result Threshold :=
  if in_range (_data_min st) (_data_max st) v then
    let old := lower_threshold st in
    let st := with_lower_threshold v st in
    if notify && bool_decide (v ≠ old) then _lower_threshold_changed v st
    else Ok st
  else Raise TraitError.

Definition assign_upper_threshold (notify : bool) (v : V) (st : Threshold)
  : Result Threshold :=
  if in_range (_data_min st) (_data_max st) v then
    let old := upper_threshold st in
    let st := with_upper_threshold v st in
    if notify && bool_decide (v ≠ old) then _upper_threshold_changed v st
    else Ok st
  else Raise TraitError.

Definition _get_data_range (st : Threshold) : Result (list V) :=
  input ← upstream st;
  let data_range := [] in
  let ps := point_data_scalars input in
  let cs := cell_data_scalars input in
  match ps with
  | Some ps => Ok [(range ps).1; (range ps).2]
  | None =>
      match cs with
      | Some cs => Ok [(range cs).1; (range cs).2]
      | None => Ok data_range
      end
  end.

Definition _update_ranges (st : Threshold) : Result Threshold :=
  data_range ← _get_data_range st;
  if bool_decide (0 < length data_range) then
    let dr := data_range in
    if _first st then
      '(lo, hi) ← unpack2 dr;
      let st := with_data_max hi (with_data_min lo st) in
      dr0 ← index dr 0;
      st ← assign_lower_threshold false dr0 st;
      dr1 ← index dr 1;
      st ← assign_upper_threshold true dr1 st;
      Ok (with_first false st)
    else
      st ← (if auto_reset_lower st then
              dr0 ← index dr 0;
              let st := with_data_min dr0 st in
              let notify := negb (auto_reset_upper st) in
              dr0 ← index dr 0;
              assign_lower_threshold notify dr0 st
            else Ok st);
      if auto_reset_upper st then
        dr1 ← index dr 1;
        let st := with_data_max dr1 st in
        dr1 ← index dr 1;
        assign_upper_threshold true dr1 st
      else Ok st
  else Ok st.

Definition update_pipeline (st : Threshold) : Result Threshold :=
  if bool_decide (length (inputs st) = 0) then Ok st
  else
    let fil := _get_threshold_filter st in
    input ← upstream st;
    let st := fil_set_input fil input st in
    st ← _update_ranges st;
    Ok (_set_outputs [OutputOf (_get_threshold_filter st)] st).

Definition update_data (st : Threshold) : Result Threshold :=
  if bool_decide (length (inputs st) = 0) then Ok st
  else
    st ← _update_ranges st;
    Ok (fire_data_changed st).

Definition _auto_reset_lower_changed (value : bool) (st : Threshold)
  : Result Threshold :=
  if bool_decide (length (inputs st) = 0) then Ok st
  else if value then
    dr ← _get_data_range st;
    dr0 ← index dr 0;
    let st := with_data_min dr0 st in
    dr0 ← index dr 0;
    assign_lower_threshold true dr0 st
  else Ok st.

Definition _auto_reset_upper_changed (value : bool) (st : Threshold)
  : Result Threshold :=
  if bool_decide (length (inputs st) = 0) then Ok st
  else if value then
    dr ← _get_data_range st;
    dr1 ← index dr 1;
    let st := with_data_max dr1 st in
    dr1 ← index dr 1;
    assign_upper_threshold true dr1 st
  else Ok st.

Definition _threshold_filter_changed (old new : AlgoRef) (st : Threshold)
  : Result Threshold :=
  if bool_decide (length (inputs st) = 0) then Ok st
  else
    let fil := new in
    input ← upstream st;
    let st := fil_set_input fil input st in
    let st :=
      fil_threshold_between fil (read_lower_threshold st)
        (read_upper_threshold st) st in
    let st := fil_update fil st in
    Ok (_set_outputs [OutputOf fil] st).

(** [self.trait_property_changed('threshold_filter', old, new)] calls the
    handler of the property; an exception that leaves the handler is
    caught and logged there.  ([_threshold_filter_changed] raises only
    before it has stored anything.) *)
Definition _filter_type_changed (value : FilterType) (st : Threshold)
  : Result Threshold :=
  let '(old, new) :=
    match value with
    | cells => (Ref_threshold_points, Ref_threshold)
    | points => (Ref_threshold, Ref_threshold_points)
    end in
  match _threshold_filter_changed old new st with
  | Ok st => Ok st
  | Raise e => Ok (emit (EvException e) st)
  end.

Definition _threshold_filter_edited (st : Threshold) : Result Threshold :=
  let st := fil_update (_get_threshold_filter st) st in
  Ok (fire_data_changed st).

(** The object as an auto-reset handler leaves it when it raises.  A
    handler raises before it has stored anything, unless it is the
    assignment of the threshold that raises: the end of the range is
    cached by then. *)
Definition _auto_reset_lower_interrupted (st : Threshold) : Threshold :=
  match _get_data_range st ≫= λ dr, index dr 0 with
  | Ok dr0 => with_data_min dr0 st
  | Raise _ => st
  end.

Definition _auto_reset_upper_interrupted (st : Threshold) : Threshold :=
  match _get_data_range st ≫= λ dr, index dr 1 with
  | Ok dr1 => with_data_max dr1 st
  | Raise _ => st
  end.

(** Assigning the remaining public traits.  The handler runs when the
    value changes; an exception that leaves it is caught and logged, and
    the assignment returns with what the handler had done so far. *)
Definition assign_auto_reset_lower (value : bool) (st : Threshold)
  : Result Threshold :=
  let old := auto_reset_lower st in
  let st := with_auto_reset_lower value st in
  if bool_decide (value ≠ old) then
    match _auto_reset_lower_changed value st with
    | Ok st => Ok st
    | Raise e => Ok (emit (EvException e) (_auto_reset_lower_interrupted st))
    end
  else Ok st.

Definition assign_auto_reset_upper (value : bool) (st : Threshold)
  : Result Threshold :=
  let old := auto_reset_upper st in
  let st := with_auto_reset_upper value st in
  if bool_decide (value ≠ old) then
    match _auto_reset_upper_changed value st with
    | Ok st => Ok st
    | Raise e => Ok (emit (EvException e) (_auto_reset_upper_interrupted st))
    end
  else Ok st.

Definition assign_filter_type (value : FilterType) (st : Threshold)
  : Result Threshold :=
  let old := filter_type st in
  let st := with_filter_type value st in
  if bool_decide (value ≠ old) then
    match _filter_type_changed value st with
    | Ok st => Ok st
    | Raise e => Ok (emit (EvException e) st)
    end
  else Ok st.

(** ** Counting executions *)

Definition is_update (e : Event) : bool :=
  match e with
  | EvUpdate _ => true
  | _ => false
  end.

(** How often an algorithm was executed in a stretch of the log. *)
Definition executions (evs : list Event) : nat :=
  length (filter (λ e, is_update e = true) evs).

(** ** Notifications and what they show *)

(** Going from [st] to [st'] appended some events to the log, and every
    [data_changed] among them was fired while [outputs] already showed
    what it shows in [st']: no listener was handed something that the
    same operation replaced afterwards. *)
Definition notified_fresh (st st' : Threshold) : Prop :=
  ∃ evs,
    log st' = log st ++ evs
    ∧ Forall (λ e, ∀ seen, e = EvDataChanged seen → seen = view st') evs.

(** ** Persistence *)

(** The values a pure state holds, as far as this object has them. *)
Inductive PyVal :=
| PyFloat (x : V)
| PyBool (b : bool)
| PyStr (s : string).

Definition filter_type_name (t : FilterType) : string :=
  match t with
  | cells => "cells"
  | points => "points"
  end.

(** Modelled from the spec: [__get_pure_state__] of the base class is not
    in the embedded file.  The spec speaks of the state that is persisted
    as the object's fields, the derived ones being taken out by
    [Threshold]; the base state is therefore the dict of the traits
    declared by [Threshold], each under its own name. *)
Definition Base_get_pure_state (st : Threshold) : gmap string PyVal :=
  list_to_map
    [ ("filter_type", PyStr (filter_type_name (filter_type st)));
      ("lower_threshold", PyFloat (lower_threshold st));
      ("upper_threshold", PyFloat (upper_threshold st));
      ("auto_reset_lower", PyBool (auto_reset_lower st));
      ("auto_reset_upper", PyBool (auto_reset_upper st));
      ("_data_min", PyFloat (_data_min st));
      ("_data_max", PyFloat (_data_max st));
      ("_first", PyBool (_first st)) ].

(** The loop of [__get_pure_state__]: [d.pop(name, None)] for each of the
    three names. *)
Definition pop_derived (d : gmap string PyVal) : gmap string PyVal :=
  foldl (λ d name, delete name d) d ["_first"; "_data_min"; "_data_max"].

Definition __get_pure_state__ (st : Threshold) : gmap string PyVal :=
  let d := Base_get_pure_state st in
  pop_derived d.

End Threshold.

Arguments Algo : clear implicits.
Arguments Event : clear implicits.
Arguments Threshold : clear implicits.
Arguments PyVal : clear implicits.

(** ** A concrete setting

    Integers for scalars, a mesh that is nothing but its two optional
    scalar ranges, an engine that records what it was run on, and the
    range check [low <= v <= high]. *)

Module Scenario.

Record Mesh := {
  mesh_point_range : option (Z * Z);
  mesh_cell_range : option (Z * Z)
}.

Definition Run : Type := AlgoRef * option Mesh * Z * Z.

(** [if value < low: low; elif value > high: high; else: value] *)
Definition clamp (low high v : Z) : Z :=
  if (v <? low)%Z then low else if (high <? v)%Z then high else v.

#[global] Instance collaborators : Collaborators Z Mesh Run.
Proof.
  refine {|
    point_data_scalars m := (λ r, {| range := r |}) <$> mesh_point_range m;
    cell_data_scalars m := (λ r, {| range := r |}) <$> mesh_cell_range m;
    engine fil input lo hi := (fil, input, lo, hi);
    in_range low high v := ((low <=? v) && (v <=? high))%Z;
    range_read := clamp
  |}.
  intros low high v Hin. unfold clamp.
  apply andb_prop in Hin as [Hlow Hhigh].
  apply Z.leb_le in Hlow, Hhigh.
  destruct (Z.ltb_spec v low); [lia|].
  destruct (Z.ltb_spec high v); [lia|reflexivity].
Defined.

(** An algorithm object that has never been configured or run. *)
Definition idle (fil : AlgoRef) : Algo Z Mesh Run :=
  {| alg_input := None; alg_lower := 0%Z; alg_upper := 0%Z;
     alg_output := (fil, None, 0%Z, 0%Z) |}.

(** A [Threshold] as the class declares it (with 10^20 for [1e20]),
    attached to the given input nodes. *)
Definition new_Threshold (ins : list (list Mesh)) : Threshold Z Mesh Run :=
  {| inputs := ins; outputs := []; filter_type := cells;
     lower_threshold := (- 10 ^ 20)%Z; upper_threshold := (10 ^ 20)%Z;
     auto_reset_lower := true; auto_reset_upper := true;
     _data_min := (- 10 ^ 20)%Z; _data_max := (10 ^ 20)%Z;
     _threshold := idle Ref_threshold;
     _threshold_points := idle Ref_threshold_points;
     _first := true; log := [] |}.

Definition point_mesh (lo hi : Z) : Mesh :=
  {| mesh_point_range := Some (lo, hi); mesh_cell_range := None |}.

Definition cell_mesh (lo hi : Z) : Mesh :=
  {| mesh_point_range := None; mesh_cell_range := Some (lo, hi) |}.

Definition bare_mesh : Mesh :=
  {| mesh_point_range := None; mesh_cell_range := None |}.

(** The upstream node now shows the given mesh. *)
Definition upstream_shows (m : Mesh) (st : Threshold Z Mesh Run)
  : Threshold Z Mesh Run :=
  {| inputs := [[m]]; outputs := outputs st; filter_type := filter_type st;
     lower_threshold := lower_threshold st;
     upper_threshold := upper_threshold st;
     auto_reset_lower := auto_reset_lower st;
     auto_reset_upper := auto_reset_upper st;
     _data_min := _data_min st; _data_max := _data_max st;
     _threshold := _threshold st;
     _threshold_points := _threshold_points st;
     _first := _first st; log := log st |}.

(** The object when a method returned, and the default object when it
    raised. *)
Definition after (r : Result (Threshold Z Mesh Run)) : Threshold Z Mesh Run :=
  match r with
  | Ok st => st
  | Raise _ => new_Threshold []
  end.

(** The object after its first [update_pipeline] on point scalars in
    [[0, 100]]. *)
Definition initialised : Threshold Z Mesh Run :=
  after (update_pipeline (new_Threshold [[point_mesh 0 100]])).

(** After that, the data changes so that the range is [[10, 100]]. *)
Definition lower_end_moved : Threshold Z Mesh Run :=
  upstream_shows (point_mesh 10 100) initialised.

(** After that, the data changes so that the range is [[10, 90]]. *)
Definition both_ends_moved : Threshold Z Mesh Run :=
  upstream_shows (point_mesh 10 90) initialised.

(** A new object whose upper threshold is set to 100 before it is attached
    to data with point scalars in [[0, 100]]. *)
Definition preset_upper : Threshold Z Mesh Run :=
  upstream_shows (point_mesh 0 100)
    (after (assign_upper_threshold true 100%Z (new_Threshold []))).

(** A new object attached to a mesh without scalars. *)
Definition no_scalars : Threshold Z Mesh Run :=
  new_Threshold [[bare_mesh]].

End Scenario.

(** ** Further notions used to describe the methods *)

Section Agreement.

Context {V : Type} `{EqDecision V} {Dataset Geometry : Type}.
Context `{!Collaborators V Dataset Geometry}.

(** The active algorithm works with the pair of thresholds the object
    shows. *)
Definition in_sync (st : Threshold V Dataset Geometry) : Prop :=
  alg_lower (algo (_get_threshold_filter st) st) = read_lower_threshold st
  ∧ alg_upper (algo (_get_threshold_filter st) st) = read_upper_threshold st.

(** The range the specification selects for a dataset: that of the point
    scalars when there are any, else that of the cell scalars when there
    are any, else none. *)
Definition selected_range (input : Dataset) : option (V * V) :=
  match point_data_scalars input with
  | Some ps => Some (range ps)
  | None =>
      match cell_data_scalars input with
      | Some cs => Some (range cs)
      | None => None
      end
  end.

(** Going from [st] to [st'] either logged nothing, or logged one execution
    of the algorithm that was active in [st] followed by one notification
    showing what [outputs] shows in [st']. *)
Definition quiet_or_once (st st' : Threshold V Dataset Geometry) : Prop :=
  (log st' = log st ∧ view st' = view st)
  ∨ log st' =
      log st ++ [EvUpdate (_get_threshold_filter st);
                 EvDataChanged (view st')].

(** The parts of the object that only an assignment from outside changes. *)
Definition same_settings (st st' : Threshold V Dataset Geometry) : Prop :=
  inputs st' = inputs st
  ∧ filter_type st' = filter_type st
  ∧ auto_reset_lower st' = auto_reset_lower st
  ∧ auto_reset_upper st' = auto_reset_upper st.

(** What [outputs] refers to and what the two algorithms read. *)
Definition same_wiring (st st' : Threshold V Dataset Geometry) : Prop :=
  outputs st' = outputs st
  ∧ alg_input (_threshold st') = alg_input (_threshold st)
  ∧ alg_input (_threshold_points st') = alg_input (_threshold_points st).

(** A step that touches neither the settings nor the wiring and logs at
    most one execution. *)
Definition step (st st' : Threshold V Dataset Geometry) : Prop :=
  quiet_or_once st st' ∧ same_settings st st' ∧ same_wiring st st'.

(** A step that only stores values in the object itself. *)
Definition silent (st st' : Threshold V Dataset Geometry) : Prop :=
  log st' = log st
  ∧ _threshold st' = _threshold st
  ∧ _threshold_points st' = _threshold_points st
  ∧ outputs st' = outputs st
  ∧ same_settings st st'.

End Agreement.

(** * The adder nodes of the tree editor

    An embedding of the handlers of [enthought/mayavi/core/adder_node.py].
    Views, buttons and icons are left out.  A menu helper is known here by
    the names of its callable attributes, each with the truth value of
    what a call of it returns; what reading its [actions] and calling its
    [_build_filter_actions] do to it is left to two parameters. *)

Module Adder.

Import Stdlib.Strings.Ascii.

(** The outcome of code that can fail on a missing attribute. *)
Inductive Attr (A : Type) :=
| Got (a : A)
| AttributeError (name : string).
Arguments Got {A} a.
Arguments AttributeError {A} name.

(** An entry of the registry, as far as the nodes read it. *)
Record Metadata := {
  md_id : string;
  menu_name : string;
  help : string;
  extensions : list string
}.

Record Registry := {
  sources : list Metadata;
  modules : list Metadata;
  filters : list Metadata
}.

Definition MenuHelper : Type := gmap string bool.

(** [s.replace('&', '')] *)
Fixpoint replace_amp (s : string) : string :=
  match s with
  | EmptyString => EmptyString
  | String c rest =>
      if Ascii.eqb c "&"%char then replace_amp rest
      else String c (replace_amp rest)
  end.

(** ['check_%s' % id] *)
Definition check_name (id : string) : string := "check_" +:+ id.

Inductive NodeClass :=
| ListAdderNode
| SourceAdderNode
| ModuleAdderNode
| FilterAdderNode.

Section Nodes.

(** References to the Mayavi objects a node can point at. *)
Context {T : Type}.

(** What reading [menu_helper.actions] and calling
    [menu_helper._build_filter_actions()] leave of the helper. *)
Variable read_actions : MenuHelper → MenuHelper.
Variable _build_filter_actions : MenuHelper → MenuHelper.

Record DocumentedItem := {
  name : string;
  enabled : bool;
  documentation : string;
  id : string;
  item_object : T;
  add_label : string
    (** the label of the [add] button of the item's own class *)
}.

Definition documented_item_factory
    (name : string) (enabled : bool) (documentation : string)
    (id : string) (object : T) : DocumentedItem :=
  {| name := name; enabled := enabled; documentation := documentation;
     id := id; item_object := object; add_label := name |}.

(** [DocumentedItem._add_fired]: the name of the helper method that is
    called, given the helper of the item's object. *)
Definition _add_fired (it : DocumentedItem) (helper : MenuHelper)
  : Attr string :=
  match helper !! id it with
  | Some _ => Got (id it)
  | None => AttributeError (id it)
  end.

Record ListAdder := {
  node_class : NodeClass;
  object : option T;
  items_list : list DocumentedItem;
  items_list_source : list Metadata
}.

(** The class attribute [items_list_source] of each class. *)
Definition class_items_list_source (cls : NodeClass) (registry : Registry)
  : list Metadata :=
  match cls with
  | ListAdderNode => []
  | SourceAdderNode =>
      filter (λ source, length (extensions source) = 0) (sources registry)
  | ModuleAdderNode => modules registry
  | FilterAdderNode => filters registry
  end.

Definition new_node (cls : NodeClass) (registry : Registry) : ListAdder :=
  {| node_class := cls; object := None; items_list := [];
     items_list_source := class_items_list_source cls registry |}.

(** [_is_action_suitable], which [SourceAdderNode] overrides. *)
Definition _is_action_suitable
    (cls : NodeClass) (helper : MenuHelper) (src : Metadata) : bool :=
  match cls with
  | SourceAdderNode => true
  | _ =>
      match helper !! check_name (md_id src) with
      | Some returned => returned
      | None => false
      end
  end.

(** [ListAdderNode._object_changed]; [value] comes with its menu helper,
    and the helper is handed back as the handler leaves it. *)
Definition ListAdderNode_object_changed
    (self : ListAdder) (value : option (T * MenuHelper))
  : ListAdder * option MenuHelper :=
  let '(result, helper) :=
    match value with
    | Some (value, helper) =>
        let helper := read_actions helper in
        ((λ src,
            let name := replace_amp (menu_name src) in
            documented_item_factory name
              (_is_action_suitable (node_class self) helper src)
              (help src) (md_id src) value)
         <$> items_list_source self,
         Some helper)
    | None => ([], None)
    end in
  ({| node_class := node_class self; object := object self;
      items_list := result;
      items_list_source := items_list_source self |}, helper).

(** [_object_changed] as the class of the node has it: [ModuleAdderNode]
    builds the filter actions first. *)
Definition _object_changed
    (self : ListAdder) (value : option (T * MenuHelper))
  : ListAdder * option MenuHelper :=
  match node_class self with
  | ModuleAdderNode =>
      ListAdderNode_object_changed self
        (match value with
         | Some (value, helper) => Some (value, _build_filter_actions helper)
         | None => None
         end)
  | _ => ListAdderNode_object_changed self value
  end.

(** What [AdderNode._get_scene] meets when it reads an attribute. *)
Inductive Pointee (Scene : Type) :=
| IsNone
| IsAdderNode
| IsObject (scene : option (option Scene))
    (** another object: no [scene] attribute, or the value of the
        attribute, which may be Python's [None] *).
Arguments IsNone {Scene}.
Arguments IsAdderNode {Scene}.
Arguments IsObject {Scene} scene.

(** [AdderNode._get_scene]; [attributes] holds the attributes that were
    set on the node beyond its declared traits. *)
Definition _get_scene {Scene : Type}
    (attributes : gmap string (Pointee Scene)) : Attr (option Scene) :=
  match attributes !! "obj" with
  | None => AttributeError "obj"
  | Some object =>
      match object with
      | IsAdderNode => Got None
      | IsObject scene =>
          match scene with
          | Some scene => Got scene
          | None => AttributeError "scene"
          end
      | IsNone => Got None
      end
  end.

(** Assigning the [object] trait of a list node: the handler runs when
    the value changes.  The helper is handed back as it is left. *)
Definition assign_object `{EqDecision T}
    (self : ListAdder) (value : option (T * MenuHelper))
  : ListAdder * option MenuHelper :=
  let old := object self in
  let self :=
    {| node_class := node_class self; object := fst <$> value;
       items_list := items_list self;
       items_list_source := items_list_source self |} in
  if bool_decide (fst <$> value ≠ old) then _object_changed self value
  else (self, snd <$> value).

(** [ModuleFilterAdderNode], with its two list nodes. *)
Record ModuleFilterAdder := {
  mf_object : option T;
  mf_modules : ListAdder;
  mf_filters : ListAdder
}.

Definition new_module_filter_node (registry : Registry)
  : ModuleFilterAdder :=
  {| mf_object := None;
     mf_modules := new_node ModuleAdderNode registry;
     mf_filters := new_node FilterAdderNode registry |}.

(** [ModuleFilterAdderNode._object_changed]; [helper] is the menu helper
    of [self.object] when that is not [None]. *)
Definition ModuleFilterAdderNode_object_changed `{EqDecision T}
    (self : ModuleFilterAdder) (helper : MenuHelper)
  : ModuleFilterAdder * option MenuHelper :=
  let pair_with (helper : option MenuHelper) :=
    match mf_object self, helper with
    | Some object, Some helper => Some (object, helper)
    | _, _ => None
    end in
  let '(filters, helper1) :=
    assign_object (mf_filters self) (pair_with (Some helper)) in
  let '(modules, helper2) :=
    assign_object (mf_modules self) (pair_with helper1) in
  ({| mf_object := mf_object self; mf_modules := modules;
      mf_filters := filters |}, helper2).

End Nodes.

Arguments IsNone {Scene}.
Arguments IsAdderNode {Scene}.
Arguments IsObject {Scene} scene.

End Adder.

(** ** Further concrete objects *)

Module Cases.

Import Scenario.

(** [Scenario.initialised] with [auto_reset_upper] switched off, after the
    range of the data has become [[10, 90]]. *)
Definition only_lower : Threshold Z Mesh Run :=
  upstream_shows (point_mesh 10 90)
    (after (assign_auto_reset_upper false initialised)).

(** [Scenario.initialised] with [auto_reset_upper] switched off and the
    upper threshold set to 20, after the range of the data has become
    [[50, 100]]: the stored upper threshold lies below the new range. *)
Definition stale_upper : Threshold Z Mesh Run :=
  upstream_shows (point_mesh 50 100)
    (after (assign_upper_threshold true 20%Z
              (after (assign_auto_reset_upper false initialised)))).

(** A new object with both flags off, attached to point scalars in
    [[0, 100]]. *)
Definition flags_off : Threshold Z Mesh Run :=
  with_auto_reset_upper false
    (with_auto_reset_lower false (new_Threshold [[point_mesh 0 100]])).

(** A new object whose only input node has no outputs. *)
Definition no_dataset : Threshold Z Mesh Run := new_Threshold [[]].

(** [Scenario.initialised] after the data has moved to [[200, 300]]. *)
Definition moved_above : Threshold Z Mesh Run :=
  upstream_shows (point_mesh 200 300) initialised.

(** A small registry and a menu helper with one check method. *)
Definition registry : Adder.Registry :=
  {| Adder.sources :=
       [ {| Adder.md_id := "ParametricSurface";
            Adder.menu_name := "&Create Parametric surface source";
            Adder.help := "Create a parametric surface";
            Adder.extensions := [] |};
         {| Adder.md_id := "VTKFileReader";
            Adder.menu_name := "&VTK file";
            Adder.help := "Read a legacy VTK file";
            Adder.extensions := ["vtk"] |} ];
     Adder.modules :=
       [ {| Adder.md_id := "Outline"; Adder.menu_name := "&Outline";
            Adder.help := "Draw an outline"; Adder.extensions := [] |} ];
     Adder.filters :=
       [ {| Adder.md_id := "Threshold"; Adder.menu_name := "&Threshold";
            Adder.help := "Threshold the input"; Adder.extensions := [] |};
         {| Adder.md_id := "Contour"; Adder.menu_name := "&Contour";
            Adder.help := "Contour the input"; Adder.extensions := [] |} ]
  |}.

Definition helper : Adder.MenuHelper :=
  {[ "check_Threshold" := true; "Threshold" := false ]}.

(** A filter node that points at nothing yet, and a node for modules and
    filters whose object 7 has not been handed to its children. *)
Definition filter_node : Adder.ListAdder (T := nat) :=
  Adder.new_node Adder.FilterAdderNode registry.

Definition module_filter_node : Adder.ModuleFilterAdder (T := nat) :=
  {| Adder.mf_object := Some 7;
     Adder.mf_modules := Adder.new_node Adder.ModuleAdderNode registry;
     Adder.mf_filters := Adder.new_node Adder.FilterAdderNode registry |}.

End Cases.

Section ThresholdFacts.

Context {V : Type} `{EqDecision V} {Dataset Geometry : Type}.
Context `{!Collaborators V Dataset Geometry}.

Local Abbreviation State := (Threshold V Dataset Geometry).

(** ** Basic facts *)

Lemma upstream_inputs (st : State) (d : Dataset) :
  upstream st = Ok d → bool_decide (length (inputs st) = 0) = false.
Proof.
  unfold upstream, index. destruct (inputs st) as [|node rest]; cbn.
  - discriminate.
  - intros _. apply bool_decide_eq_false_2. cbn. lia.
Qed.

Lemma get_data_range_inputs (st : State) (dr : list V) :
  _get_data_range st = Ok dr → bool_decide (length (inputs st) = 0) = false.
Proof.
  unfold _get_data_range. destruct (upstream st) as [d|e] eqn:Hup; cbn.
  - intros _. by eapply upstream_inputs.
  - discriminate.
Qed.

Lemma get_data_range_same_inputs (st1 st2 : State) :
  inputs st1 = inputs st2 → _get_data_range st1 = _get_data_range st2.
Proof. unfold _get_data_range, upstream. by intros ->. Qed.

Lemma no_inputs (st : State) :
  inputs st = [] → bool_decide (length (inputs st) = 0) = true.
Proof. intros ->. by apply bool_decide_eq_true_2. Qed.

(** ** The range that is used *)

Lemma get_data_range_no_scalars (st : State) (input : Dataset) :
  upstream st = Ok input →
  point_data_scalars input = None →
  cell_data_scalars input = None →
  _get_data_range st = Ok [].
Proof.
  intros Hup Hps Hcs. unfold _get_data_range.
  rewrite Hup. cbn. by rewrite Hps, Hcs.
Qed.

Lemma update_ranges_empty_range (st : State) :
  _get_data_range st = Ok [] → _update_ranges st = Ok st.
Proof. intros Hdr. unfold _update_ranges. by rewrite Hdr. Qed.

(** ** Detached filters *)

(** C8.  With no input, [update_pipeline] and [update_data] return at
    once and the object, [outputs] included, is what it was. *)
Theorem detached_updates_change_nothing (st : State) :
  inputs st = [] →
  update_pipeline st = Ok st ∧ update_data st = Ok st.
Proof.
  intros Hin. unfold update_pipeline, update_data.
  by rewrite (no_inputs st Hin).
Qed.

(** ** Switching an auto-reset flag off *)

Lemma with_auto_reset_lower_same (st : State) :
  with_auto_reset_lower (auto_reset_lower st) st = st.
Proof. by destruct st. Qed.

Lemma with_auto_reset_upper_same (st : State) :
  with_auto_reset_upper (auto_reset_upper st) st = st.
Proof. by destruct st. Qed.

(** C10.  The handlers of the two auto-reset flags do nothing when the new
    value is [False]: the assignment stores the flag and that is all, so
    no threshold, cached range, output or log entry changes. *)
Theorem auto_reset_off_is_noop (st : State) :
  _auto_reset_lower_changed false st = Ok st
  ∧ _auto_reset_upper_changed false st = Ok st
  ∧ assign_auto_reset_lower false st = Ok (with_auto_reset_lower false st)
  ∧ assign_auto_reset_upper false st = Ok (with_auto_reset_upper false st).
Proof.
  unfold assign_auto_reset_lower, assign_auto_reset_upper,
    _auto_reset_lower_changed, _auto_reset_upper_changed. cbn.
  repeat split; repeat case_bool_decide; done.
Qed.

(** ** Switching the filter type *)

(** C7, as the code has it.  When the first input has an output dataset,
    assigning the other filter type binds the input of the algorithm that
    becomes active to that dataset, gives it the pair of thresholds as
    they are read, executes it once and makes its output the only element
    of [outputs]; what [outputs] then shows is what the engine computes
    for that algorithm from the dataset and those thresholds.  When the
    first input has no outputs, [_threshold_filter_changed] raises
    [IndexError] at [inputs[0].outputs[0]]: the assignment stores the
    filter type, and nothing is bound, executed or put in [outputs]. *)
Theorem filter_type_switch_runs_fresh (st : State) (value : FilterType) :
  value ≠ filter_type st →
  (∀ input,
     upstream st = Ok input →
     ∃ st',
       assign_filter_type value st = Ok st'
       ∧ filter_type st' = value
       ∧ lower_threshold st' = lower_threshold st
       ∧ upper_threshold st' = upper_threshold st
       ∧ read_lower_threshold st' = read_lower_threshold st
       ∧ read_upper_threshold st' = read_upper_threshold st
       ∧ alg_input (algo (_get_threshold_filter st') st') = Some input
       ∧ alg_lower (algo (_get_threshold_filter st') st')
         = read_lower_threshold st
       ∧ alg_upper (algo (_get_threshold_filter st') st')
         = read_upper_threshold st
       ∧ outputs st' = [OutputOf (_get_threshold_filter st')]
       ∧ view st' =
           [engine (_get_threshold_filter st') (Some input)
              (read_lower_threshold st) (read_upper_threshold st)]
       ∧ log st' =
           log st ++ [EvUpdate (_get_threshold_filter st');
                      EvSetOutputs [OutputOf (_get_threshold_filter st')]])
  ∧ (∀ rest,
       inputs st = [] :: rest →
       (∀ old new,
          _threshold_filter_changed old new (with_filter_type value st)
          = Raise IndexError)
       ∧ assign_filter_type value st
         = Ok (emit (EvException IndexError) (with_filter_type value st))).
Proof.
  intros Hne. split.
  - intros input Hup.
    pose proof (upstream_inputs st input Hup) as Hin.
    unfold assign_filter_type, _filter_type_changed,
      _threshold_filter_changed.
    rewrite (bool_decide_eq_true_2 _ Hne).
    assert (upstream (with_filter_type value st) = Ok input) as -> by done.
    assert (inputs (with_filter_type value st) = inputs st) as -> by done.
    rewrite Hin. clear Hup Hin Hne.
    destruct st as [ins outs ft lt ut arl aru dmin dmax th thp fst lg].
    destruct value; cbv -[app fmap engine in_range range_read];
      (eexists; split; [reflexivity|]); cbn; rewrite <- app_assoc; done.
  - intros rest Hin.
    assert (∀ old new,
              _threshold_filter_changed old new (with_filter_type value st)
              = Raise IndexError) as Hraise.
    { intros old new. unfold _threshold_filter_changed, upstream.
      cbn. by rewrite Hin. }
    split; [exact Hraise|].
    unfold assign_filter_type, _filter_type_changed.
    rewrite (bool_decide_eq_true_2 _ Hne).
    by destruct value; rewrite Hraise.
Qed.

(** ** What is persisted *)

Lemma pop_derived_absent (d : gmap string (PyVal V)) :
  pop_derived d !! "_first" = None
  ∧ pop_derived d !! "_data_min" = None
  ∧ pop_derived d !! "_data_max" = None.
Proof.
  unfold pop_derived. cbn.
  repeat split; repeat (rewrite lookup_delete; case_decide; try done).
Qed.

Lemma pop_derived_other (d : gmap string (PyVal V)) (name : string) :
  name ≠ "_first" → name ≠ "_data_min" → name ≠ "_data_max" →
  pop_derived d !! name = d !! name.
Proof.
  intros H1 H2 H3. unfold pop_derived. cbn.
  by rewrite !lookup_delete_ne.
Qed.

(** C9.  The pure state holds [filter_type], [lower_threshold],
    [upper_threshold], [auto_reset_lower] and [auto_reset_upper] with
    their current values and has no entry for [_first], [_data_min] and
    [_data_max]; the three are popped from whatever dict the base class
    hands over, and no other entry of it is touched. *)
Theorem pure_state_keeps_settings_drops_derived (st : State) :
  (__get_pure_state__ st !! "filter_type"
     = Some (PyStr (filter_type_name (filter_type st)))
   ∧ __get_pure_state__ st !! "lower_threshold"
       = Some (PyFloat (lower_threshold st))
   ∧ __get_pure_state__ st !! "upper_threshold"
       = Some (PyFloat (upper_threshold st))
   ∧ __get_pure_state__ st !! "auto_reset_lower"
       = Some (PyBool (auto_reset_lower st))
   ∧ __get_pure_state__ st !! "auto_reset_upper"
       = Some (PyBool (auto_reset_upper st)))
  ∧ (__get_pure_state__ st !! "_first" = None
     ∧ __get_pure_state__ st !! "_data_min" = None
     ∧ __get_pure_state__ st !! "_data_max" = None)
  ∧ (∀ d : gmap string (PyVal V),
       pop_derived d !! "_first" = None
       ∧ pop_derived d !! "_data_min" = None
       ∧ pop_derived d !! "_data_max" = None
       ∧ ∀ name, name ≠ "_first" → name ≠ "_data_min" →
           name ≠ "_data_max" → pop_derived d !! name = d !! name).
Proof.
  split; [|split].
  - unfold __get_pure_state__.
    repeat split; (rewrite pop_derived_other; [|done..]);
      unfold Base_get_pure_state; cbn; by simplify_map_eq.
  - apply pop_derived_absent.
  - intros d. destruct (pop_derived_absent d) as (? & ? & ?).
    repeat split; try done. apply pop_derived_other.
Qed.

(** ** When notifications are fired *)

Ltac fresh_leaf :=
  first
    [ exists []; split; [by rewrite app_nil_r|]; by constructor
    | rewrite <- ?app_assoc; eexists; split; [reflexivity|];
      repeat constructor; intros; simplify_eq; done ].

Lemma assign_lower_threshold_fresh (notify : bool) (v : V) (st st' : State) :
  assign_lower_threshold notify v st = Ok st' → notified_fresh st st'.
Proof.
  unfold assign_lower_threshold, _lower_threshold_changed, notified_fresh.
  destruct st as [ins outs [] lt ut arl aru dmin dmax th thp fst lg];
    cbn; intros Hrun; repeat case_match; simplify_eq; cbn; fresh_leaf.
Qed.

Lemma assign_upper_threshold_fresh (notify : bool) (v : V) (st st' : State) :
  assign_upper_threshold notify v st = Ok st' → notified_fresh st st'.
Proof.
  unfold assign_upper_threshold, _upper_threshold_changed, notified_fresh.
  destruct st as [ins outs [] lt ut arl aru dmin dmax th thp fst lg];
    cbn; intros Hrun; repeat case_match; simplify_eq; cbn; fresh_leaf.
Qed.

Lemma fresh_refl (st : State) : notified_fresh st st.
Proof. exists []. split; [by rewrite app_nil_r|by constructor]. Qed.

Lemma fresh_quiet_l (st st1 st' : State) :
  log st1 = log st → notified_fresh st1 st' → notified_fresh st st'.
Proof. intros Hlog (evs & Hevs & Hall). exists evs. by rewrite <- Hlog. Qed.

Lemma fresh_quiet_r (st st1 st' : State) :
  notified_fresh st st1 → log st' = log st1 → view st' = view st1 →
  notified_fresh st st'.
Proof.
  intros (evs & Hevs & Hall) Hlog Hview. exists evs.
  by rewrite Hlog, Hview.
Qed.

Lemma assign_lower_threshold_silent (v : V) (st st' : State) :
  assign_lower_threshold false v st = Ok st' →
  st' = with_lower_threshold v st.
Proof.
  unfold assign_lower_threshold. cbn.
  destruct (in_range _ _ _); intros ?; by simplify_eq.
Qed.

Lemma assign_lower_threshold_keeps_flag
    (notify : bool) (v : V) (st st' : State) :
  assign_lower_threshold notify v st = Ok st' →
  auto_reset_upper st' = auto_reset_upper st.
Proof.
  unfold assign_lower_threshold, _lower_threshold_changed.
  destruct st as [ins outs [] lt ut arl aru dmin dmax th thp fst lg];
    cbn; intros Hrun; repeat case_match; by simplify_eq.
Qed.

Lemma update_ranges_fresh (st st' : State) :
  _update_ranges st = Ok st' → notified_fresh st st'.
Proof.
  unfold _update_ranges.
  destruct (_get_data_range st) as [dr|e]; cbn; [|done].
  case_bool_decide; [|intros ?; simplify_eq; apply fresh_refl].
  destruct (_first st).
  - destruct (unpack2 dr) as [[lo hi]|e]; cbn; [|done].
    destruct (index dr 0) as [dr0|e]; cbn; [|done].
    destruct (assign_lower_threshold false dr0 _) as [st1|e] eqn:Hlo;
      cbn; [|done].
    destruct (index dr 1) as [dr1|e]; cbn; [|done].
    destruct (assign_upper_threshold true dr1 st1) as [st2|e] eqn:Hhi;
      cbn; [|done].
    intros ?; simplify_eq.
    apply assign_lower_threshold_silent in Hlo as ->.
    apply assign_upper_threshold_fresh in Hhi.
    eapply fresh_quiet_r; [eapply fresh_quiet_l; [|exact Hhi]|..]; done.
  - destruct (auto_reset_lower st) eqn:Harl.
    + destruct (index dr 0) as [dr0|e]; cbn; [|done].
      destruct (auto_reset_upper st) eqn:Haru; cbn.
      * destruct (assign_lower_threshold false dr0 _) as [st1|e] eqn:Hlo;
          cbn; [|done].
        apply assign_lower_threshold_silent in Hlo as ->. cbn.
        rewrite Haru.
        destruct (index dr 1) as [dr1|e]; cbn; [|done].
        intros Hhi. apply assign_upper_threshold_fresh in Hhi.
        eapply fresh_quiet_l; [|exact Hhi]. done.
      * destruct (assign_lower_threshold true dr0 _) as [st1|e] eqn:Hlo;
          cbn; [|done].
        rewrite (assign_lower_threshold_keeps_flag _ _ _ _ Hlo). cbn.
        rewrite Haru. intros ?; simplify_eq.
        apply assign_lower_threshold_fresh in Hlo.
        eapply fresh_quiet_l; [|exact Hlo]. done.
    + cbn. destruct (auto_reset_upper st).
      * destruct (index dr 1) as [dr1|e]; cbn; [|done].
        intros Hhi. apply assign_upper_threshold_fresh in Hhi.
        eapply fresh_quiet_l; [|exact Hhi]. done.
      * intros ?; simplify_eq. apply fresh_refl.
Qed.

Lemma fire_data_changed_fresh (st st' : State) :
  notified_fresh st st' → notified_fresh st (fire_data_changed st').
Proof.
  intros (evs & Hlog & Hall). exists (evs ++ [EvDataChanged (view st')]).
  split.
  - cbn. by rewrite Hlog, app_assoc.
  - apply Forall_app. split; [done|].
    repeat constructor. intros seen ?. by simplify_eq.
Qed.

(** C4, as the code has it.  Whatever the two threshold assignments and
    [update_data] notify, they notify after the algorithm has run: each
    [data_changed] they fire shows the outputs that the operation ends
    with.  ([update_pipeline] is not among them: it assigns [outputs]
    after the range recompute.) *)
Theorem setters_and_update_data_notify_fresh (st st' : State) :
  (∀ notify v, assign_lower_threshold notify v st = Ok st' →
     notified_fresh st st')
  ∧ (∀ notify v, assign_upper_threshold notify v st = Ok st' →
       notified_fresh st st')
  ∧ (update_data st = Ok st' → notified_fresh st st').
Proof.
  split; [|split].
  - intros notify v. apply assign_lower_threshold_fresh.
  - intros notify v. apply assign_upper_threshold_fresh.
  - unfold update_data. case_bool_decide.
    + intros ?; simplify_eq. exists []. split; [by rewrite app_nil_r|done].
    + destruct (_update_ranges st) as [st1|e] eqn:Hrun; cbn; [|done].
      intros ?; simplify_eq.
      by apply fire_data_changed_fresh, update_ranges_fresh.
Qed.

(** ** Datasets without scalars *)

(** C3, the part the code does not keep.  On a dataset with neither point
    nor cell scalars the range is the empty list; [_update_ranges], which
    looks at the length first, returns the object as it was, but the two
    auto-reset handlers index the list and raise [IndexError].  When a
    handler is called by the assignment that switches the flag on, Traits
    catches and logs the error: the assignment returns with the flag
    stored and nothing else changed. *)
Theorem auto_reset_on_without_scalars_raises
    (st : State) (input : Dataset) :
  upstream st = Ok input →
  point_data_scalars input = None →
  cell_data_scalars input = None →
  _get_data_range st = Ok []
  ∧ _update_ranges st = Ok st
  ∧ _auto_reset_lower_changed true st = Raise IndexError
  ∧ _auto_reset_upper_changed true st = Raise IndexError
  ∧ (auto_reset_lower st = false →
     assign_auto_reset_lower true st
     = Ok (emit (EvException IndexError) (with_auto_reset_lower true st)))
  ∧ (auto_reset_upper st = false →
     assign_auto_reset_upper true st
     = Ok (emit (EvException IndexError) (with_auto_reset_upper true st))).
Proof.
  intros Hup Hps Hcs.
  pose proof (upstream_inputs st input Hup) as Hin.
  pose proof (get_data_range_no_scalars st input Hup Hps Hcs) as Hdr.
  pose proof (update_ranges_empty_range st Hdr) as Hnoop.
  assert (∀ st0 : State, inputs st0 = inputs st →
            _auto_reset_lower_changed true st0 = Raise IndexError
            ∧ _auto_reset_lower_interrupted st0 = st0
            ∧ _auto_reset_upper_changed true st0 = Raise IndexError
            ∧ _auto_reset_upper_interrupted st0 = st0) as Hboth.
  { intros st0 Hsame.
    unfold _auto_reset_lower_changed, _auto_reset_lower_interrupted,
      _auto_reset_upper_changed, _auto_reset_upper_interrupted.
    rewrite (get_data_range_same_inputs st0 st Hsame), Hsame, Hin, Hdr.
    done. }
  destruct (Hboth st eq_refl) as (Hlo & _ & Hhi & _).
  split; [exact Hdr|]. split; [exact Hnoop|].
  split; [exact Hlo|]. split; [exact Hhi|]. split.
  - intros Hoff. unfold assign_auto_reset_lower. rewrite Hoff.
    rewrite (bool_decide_eq_true_2 (true ≠ false)) by done.
    destruct (Hboth (with_auto_reset_lower true st) eq_refl)
      as (-> & -> & _). done.
  - intros Hoff. unfold assign_auto_reset_upper. rewrite Hoff.
    rewrite (bool_decide_eq_true_2 (true ≠ false)) by done.
    destruct (Hboth (with_auto_reset_upper true st) eq_refl)
      as (_ & _ & -> & ->). done.
Qed.

(** ** Operations on a detached filter *)

(** C5, as the code has it.  With no input, [update_pipeline] and
    [update_data] return the object unchanged, a change of filter type or
    of an auto-reset flag stores the new value and does nothing else, and
    none of them raises, executes an algorithm or notifies.  The handlers
    of the two thresholds do not look at the inputs: an assignment that
    changes a threshold hands the pair of bounds to the active algorithm,
    executes it and fires [data_changed]. *)
Theorem detached_operations (st : State) :
  inputs st = [] →
  (update_pipeline st = Ok st
   ∧ update_data st = Ok st
   ∧ (∀ value, assign_filter_type value st = Ok (with_filter_type value st))
   ∧ (∀ value,
        assign_auto_reset_lower value st
        = Ok (with_auto_reset_lower value st))
   ∧ (∀ value,
        assign_auto_reset_upper value st
        = Ok (with_auto_reset_upper value st)))
  ∧ (∀ v, in_range (_data_min st) (_data_max st) v = true →
       v ≠ lower_threshold st →
       ∃ st',
         assign_lower_threshold true v st = Ok st'
         ∧ inputs st' = []
         ∧ lower_threshold st' = v
         ∧ alg_lower (algo (_get_threshold_filter st) st') = v
         ∧ alg_upper (algo (_get_threshold_filter st) st')
           = read_upper_threshold st
         ∧ log st' =
             log st ++ [EvUpdate (_get_threshold_filter st);
                        EvDataChanged (view st')])
  ∧ (∀ v, in_range (_data_min st) (_data_max st) v = true →
       v ≠ upper_threshold st →
       ∃ st',
         assign_upper_threshold true v st = Ok st'
         ∧ inputs st' = []
         ∧ upper_threshold st' = v
         ∧ alg_lower (algo (_get_threshold_filter st) st')
           = read_lower_threshold st
         ∧ alg_upper (algo (_get_threshold_filter st) st') = v
         ∧ log st' =
             log st ++ [EvUpdate (_get_threshold_filter st);
                        EvDataChanged (view st')]).
Proof.
  intros Hin. pose proof (no_inputs st Hin) as Hlen.
  split; [|split].
  - assert (update_pipeline st = Ok st) as Hp.
    { unfold update_pipeline. by rewrite Hlen. }
    assert (update_data st = Ok st) as Hd.
    { unfold update_data. by rewrite Hlen. }
    repeat split; try done.
    + intros value. unfold assign_filter_type.
      destruct (bool_decide (value ≠ filter_type st)); [|done].
      assert (_filter_type_changed value (with_filter_type value st)
              = Ok (with_filter_type value st)) as ->; [|done].
      unfold _filter_type_changed, _threshold_filter_changed.
      destruct value; cbn; by rewrite Hlen.
    + intros value. unfold assign_auto_reset_lower.
      destruct (bool_decide (value ≠ auto_reset_lower st)); [|done].
      assert (_auto_reset_lower_changed value (with_auto_reset_lower value st)
              = Ok (with_auto_reset_lower value st)) as ->; [|done].
      unfold _auto_reset_lower_changed. cbn. by rewrite Hlen.
    + intros value. unfold assign_auto_reset_upper.
      destruct (bool_decide (value ≠ auto_reset_upper st)); [|done].
      assert (_auto_reset_upper_changed value (with_auto_reset_upper value st)
              = Ok (with_auto_reset_upper value st)) as ->; [|done].
      unfold _auto_reset_upper_changed. cbn. by rewrite Hlen.
  - intros v Hok Hne. unfold assign_lower_threshold. rewrite Hok. cbn.
    rewrite (bool_decide_eq_true_2 _ Hne).
    unfold _lower_threshold_changed. clear Hlen Hok.
    destruct st as [ins outs [] lt ut arl aru dmin dmax th thp fst lg];
      cbv -[app fmap engine in_range range_read];
      (eexists; split; [reflexivity|]); cbn in *; rewrite <- app_assoc;
      done.
  - intros v Hok Hne. unfold assign_upper_threshold. rewrite Hok. cbn.
    rewrite (bool_decide_eq_true_2 _ Hne).
    unfold _upper_threshold_changed. clear Hlen Hok.
    destruct st as [ins outs [] lt ut arl aru dmin dmax th thp fst lg];
      cbv -[app fmap engine in_range range_read];
      (eexists; split; [reflexivity|]); cbn in *; rewrite <- app_assoc;
      done.
Qed.

(** ** Resetting both thresholds *)

Lemma bool_decide_ne_same (v : V) : bool_decide (v ≠ v) = false.
Proof. by apply bool_decide_eq_false_2; intros ?. Qed.

(** After the first update, with both flags on: when the upper end of the
    new range is the upper threshold the object already has, the recompute
    only stores. *)
Lemma update_ranges_both_same_upper (st : State) (lo hi : V) :
  _get_data_range st = Ok [lo; hi] →
  _first st = false →
  auto_reset_lower st = true →
  auto_reset_upper st = true →
  upper_threshold st = hi →
  in_range lo (_data_max st) lo = true →
  in_range lo hi hi = true →
  _update_ranges st =
    Ok (with_upper_threshold hi
          (with_data_max hi (with_lower_threshold lo (with_data_min lo st)))).
Proof.
  intros Hdr Hfirst Harl Haru Hup Hlo Hhi.
  unfold _update_ranges. rewrite Hdr. clear Hdr.
  destruct st as [ins outs ft lt ut arl aru dmin dmax th thp fst lg].
  cbn in *. subst. cbn.
  unfold assign_lower_threshold. cbn. rewrite Hlo. cbn.
  unfold assign_upper_threshold. cbn. rewrite Hhi. cbn.
  by rewrite bool_decide_ne_same.
Qed.

(** The same situation with an upper end that differs from the upper
    threshold: the lower threshold is stored silently and the handler of
    the upper one executes the active algorithm once, with both new
    bounds. *)
Lemma update_ranges_both_new_upper (st : State) (lo hi : V) :
  _get_data_range st = Ok [lo; hi] →
  _first st = false →
  auto_reset_lower st = true →
  auto_reset_upper st = true →
  upper_threshold st ≠ hi →
  in_range lo (_data_max st) lo = true →
  in_range lo hi hi = true →
  in_range lo hi lo = true →
  ∃ st',
    _update_ranges st = Ok st'
    ∧ lower_threshold st' = lo
    ∧ upper_threshold st' = hi
    ∧ alg_lower (algo (_get_threshold_filter st) st') = lo
    ∧ alg_upper (algo (_get_threshold_filter st) st') = hi
    ∧ log st' =
        log st ++ [EvUpdate (_get_threshold_filter st);
                   EvDataChanged (view st')]
    ∧ executions [EvUpdate (_get_threshold_filter st);
                  EvDataChanged (view st')] = 1.
Proof.
  intros Hdr Hfirst Harl Haru Hup Hlo Hhi Hmid.
  unfold _update_ranges. rewrite Hdr. clear Hdr.
  destruct st as [ins outs ft lt ut arl aru dmin dmax th thp fst lg].
  cbn in *. subst. cbn.
  unfold assign_lower_threshold. cbn. rewrite Hlo. cbn.
  unfold assign_upper_threshold. cbn. rewrite Hhi. cbn.
  rewrite (bool_decide_eq_true_2 (hi ≠ ut)) by (intros Heq; by apply Hup).
  unfold _upper_threshold_changed, _get_threshold_filter.
  destruct ft; cbv -[app fmap engine in_range range_read];
    rewrite (range_read_accepted lo hi lo Hmid);
    (eexists; split; [reflexivity|]); cbn; rewrite <- app_assoc; done.
Qed.

(** C1, where the code falls short of it.  After the first update and with
    both flags on, a new range [[lo, hi]] whose upper end is the upper
    threshold the object already has makes [update_data] and
    [update_pipeline] store [lo] as lower threshold without any execution:
    the silent assignment of the lower threshold leaves the notification
    to an assignment of the upper one that changes nothing and so calls
    no handler.  The algorithms keep the bounds they had. *)
Theorem both_reset_same_upper_never_executes (st : State) (lo hi : V) :
  _get_data_range st = Ok [lo; hi] →
  _first st = false →
  auto_reset_lower st = true →
  auto_reset_upper st = true →
  upper_threshold st = hi →
  in_range lo (_data_max st) lo = true →
  in_range lo hi hi = true →
  (∃ st',
     update_data st = Ok st'
     ∧ lower_threshold st' = lo
     ∧ upper_threshold st' = hi
     ∧ log st' = log st ++ [EvDataChanged (view st)]
     ∧ executions [EvDataChanged (view st)] = 0
     ∧ _threshold st' = _threshold st
     ∧ _threshold_points st' = _threshold_points st)
  ∧ (∃ st',
       update_pipeline st = Ok st'
       ∧ lower_threshold st' = lo
       ∧ upper_threshold st' = hi
       ∧ log st' =
           log st ++ [EvSetOutputs [OutputOf (_get_threshold_filter st)]]
       ∧ executions (Geometry := Geometry)
           [EvSetOutputs [OutputOf (_get_threshold_filter st)]] = 0
       ∧ alg_lower (algo (_get_threshold_filter st) st')
         = alg_lower (algo (_get_threshold_filter st) st)
       ∧ alg_upper (algo (_get_threshold_filter st) st')
         = alg_upper (algo (_get_threshold_filter st) st)
       ∧ alg_output (algo (_get_threshold_filter st) st')
         = alg_output (algo (_get_threshold_filter st) st)).
Proof.
  intros Hdr Hfirst Harl Haru Hup Hlo Hhi.
  pose proof (get_data_range_inputs st _ Hdr) as Hin.
  split.
  - unfold update_data. rewrite Hin.
    rewrite (update_ranges_both_same_upper st lo hi) by done.
    eexists. split; [reflexivity|]. done.
  - unfold update_pipeline. rewrite Hin.
    destruct (upstream st) as [input|e] eqn:Hinput; cbn.
    + rewrite (update_ranges_both_same_upper
                 (fil_set_input (_get_threshold_filter st) input st) lo hi).
      * clear Hdr Hinput Hin.
        destruct st as [ins outs [] lt ut arl aru dmin dmax th thp fst lg];
          cbv -[app fmap engine in_range range_read];
          (eexists; split; [reflexivity|]); cbn in *; done.
      * rewrite <- Hdr. apply get_data_range_same_inputs.
        clear. by destruct st as [? ? [] ? ? ? ? ? ? ? ? ? ?].
      * clear Hdr Hinput Hin. by destruct st as [? ? [] ? ? ? ? ? ? ? ? ? ?].
      * clear Hdr Hinput Hin. by destruct st as [? ? [] ? ? ? ? ? ? ? ? ? ?].
      * clear Hdr Hinput Hin. by destruct st as [? ? [] ? ? ? ? ? ? ? ? ? ?].
      * clear Hdr Hinput Hin. by destruct st as [? ? [] ? ? ? ? ? ? ? ? ? ?].
      * clear Hdr Hinput Hin. by destruct st as [? ? [] ? ? ? ? ? ? ? ? ? ?].
      * done.
    + unfold _get_data_range in Hdr. by rewrite Hinput in Hdr.
Qed.

(** ** The first update *)

(** On the first update with an upper end that differs from the upper
    threshold, the cached range and both thresholds are set, the active
    algorithm is executed once with both bounds, and [_first] is
    cleared. *)
Lemma first_update_new_upper (st : State) (lo hi : V) :
  _get_data_range st = Ok [lo; hi] →
  _first st = true →
  upper_threshold st ≠ hi →
  in_range lo hi lo = true →
  in_range lo hi hi = true →
  ∃ st',
    _update_ranges st = Ok st'
    ∧ _data_min st' = lo
    ∧ _data_max st' = hi
    ∧ lower_threshold st' = lo
    ∧ upper_threshold st' = hi
    ∧ _first st' = false
    ∧ alg_lower (algo (_get_threshold_filter st) st') = lo
    ∧ alg_upper (algo (_get_threshold_filter st) st') = hi
    ∧ log st' =
        log st ++ [EvUpdate (_get_threshold_filter st);
                   EvDataChanged (view st')]
    ∧ executions [EvUpdate (_get_threshold_filter st);
                  EvDataChanged (view st')] = 1.
Proof.
  intros Hdr Hfirst Hup Hlo Hhi.
  unfold _update_ranges. rewrite Hdr. clear Hdr.
  destruct st as [ins outs ft lt ut arl aru dmin dmax th thp fst lg].
  cbn in *. subst. cbn.
  unfold assign_lower_threshold. cbn. rewrite Hlo. cbn.
  unfold assign_upper_threshold. cbn. rewrite Hhi. cbn.
  rewrite (bool_decide_eq_true_2 (hi ≠ ut)) by (intros Heq; by apply Hup).
  unfold _upper_threshold_changed, _get_threshold_filter.
  destruct ft; cbv -[app fmap engine in_range range_read];
    rewrite (range_read_accepted lo hi lo Hlo);
    (eexists; split; [reflexivity|]); cbn; rewrite <- app_assoc; done.
Qed.

(** C2, where the code falls short of it.  On the first update, a range
    [[lo, hi]] whose upper end is the upper threshold the object already
    has sets the cached range and the lower threshold and clears
    [_first], but executes nothing: the assignment of the upper threshold
    changes nothing, so its handler is not called, and the algorithms are
    never given the new lower bound. *)
Theorem first_update_same_upper_never_executes (st : State) (lo hi : V) :
  _get_data_range st = Ok [lo; hi] →
  _first st = true →
  upper_threshold st = hi →
  in_range lo hi lo = true →
  in_range lo hi hi = true →
  ∃ st',
    _update_ranges st = Ok st'
    ∧ _data_min st' = lo
    ∧ _data_max st' = hi
    ∧ lower_threshold st' = lo
    ∧ upper_threshold st' = hi
    ∧ _first st' = false
    ∧ log st' = log st
    ∧ executions (Geometry := Geometry) [] = 0
    ∧ _threshold st' = _threshold st
    ∧ _threshold_points st' = _threshold_points st.
Proof.
  intros Hdr Hfirst Hup Hlo Hhi.
  unfold _update_ranges. rewrite Hdr. clear Hdr.
  destruct st as [ins outs ft lt ut arl aru dmin dmax th thp fst lg].
  cbn in *. subst. cbn.
  unfold assign_lower_threshold. cbn. rewrite Hlo. cbn.
  unfold assign_upper_threshold. cbn. rewrite Hhi. cbn.
  rewrite bool_decide_ne_same.
  eexists. split; [reflexivity|]. done.
Qed.

End ThresholdFacts.

(** ** The theorems on concrete objects *)

Lemma detached_updates_change_nothing_witness :
  inputs (Scenario.new_Threshold []) = []
  ∧ update_pipeline (Scenario.new_Threshold [])
    = Ok (Scenario.new_Threshold [])
  ∧ update_data (Scenario.new_Threshold []) = Ok (Scenario.new_Threshold []).
Proof.
  split; [reflexivity|].
  exact (detached_updates_change_nothing (Scenario.new_Threshold []) eq_refl).
Defined.

Lemma filter_type_switch_runs_fresh_witness :
  upstream Scenario.initialised = Ok (Scenario.point_mesh 0 100)
  ∧ points ≠ filter_type Scenario.initialised
  ∧ ∃ st',
      assign_filter_type points Scenario.initialised = Ok st'
      ∧ view st' =
          [(Ref_threshold_points, Some (Scenario.point_mesh 0 100),
            0%Z, 100%Z)].
Proof.
  assert (points ≠ filter_type Scenario.initialised) as Hne by done.
  split; [reflexivity|]. split; [exact Hne|].
  destruct (filter_type_switch_runs_fresh Scenario.initialised points Hne)
    as [Hrun _].
  destruct (Hrun (Scenario.point_mesh 0 100))
    as (st' & Hst & Hft & _ & _ & _ & _ & _ & _ & _ & _ & Hview & _);
    [reflexivity|].
  exists st'. split; [exact Hst|].
  unfold _get_threshold_filter in Hview. rewrite Hft in Hview.
  exact Hview.
Defined.

(** C7 as stated fails on an attached filter whose input node has no
    outputs: the handler raises at [inputs[0].outputs[0]], the assignment
    returns with the new filter type stored, and no algorithm was bound or
    executed and [outputs] is still empty. *)
Lemma filter_type_switch_without_dataset :
  length (inputs Cases.no_dataset) = 1
  ∧ _threshold_filter_changed Ref_threshold Ref_threshold_points
      (with_filter_type points Cases.no_dataset)
    = Raise IndexError
  ∧ ∃ st',
      assign_filter_type points Cases.no_dataset = Ok st'
      ∧ filter_type st' = points
      ∧ outputs st' = []
      ∧ alg_input (algo (_get_threshold_filter st') st') = None
      ∧ executions (log st') = 0.
Proof.
  split; [reflexivity|]. split; [by vm_compute|].
  eexists. split; [by vm_compute|]. repeat split; by vm_compute.
Qed.

Lemma pure_state_keeps_settings_drops_derived_witness :
  __get_pure_state__ Scenario.initialised !! "upper_threshold"
    = Some (PyFloat 100%Z)
  ∧ __get_pure_state__ Scenario.initialised !! "_data_max" = None.
Proof.
  destruct (pure_state_keeps_settings_drops_derived Scenario.initialised)
    as ((_ & _ & Hup & _) & (_ & _ & Hmax) & _).
  split; [exact Hup|exact Hmax].
Defined.

Lemma auto_reset_on_without_scalars_raises_witness :
  upstream (with_auto_reset_lower false Scenario.no_scalars)
    = Ok Scenario.bare_mesh
  ∧ _update_ranges (with_auto_reset_lower false Scenario.no_scalars)
    = Ok (with_auto_reset_lower false Scenario.no_scalars)
  ∧ _auto_reset_lower_changed true
      (with_auto_reset_lower false Scenario.no_scalars)
    = Raise IndexError
  ∧ assign_auto_reset_lower true
      (with_auto_reset_lower false Scenario.no_scalars)
    = Ok (emit (EvException IndexError) Scenario.no_scalars).
Proof.
  destruct (auto_reset_on_without_scalars_raises
              (with_auto_reset_lower false Scenario.no_scalars)
              Scenario.bare_mesh)
    as (_ & Hnoop & Hlo & _ & Hassign & _); [reflexivity..|].
  split; [reflexivity|]. split; [exact Hnoop|]. split; [exact Hlo|].
  exact (Hassign eq_refl).
Defined.

Lemma both_reset_same_upper_never_executes_witness :
  _get_data_range Scenario.lower_end_moved = Ok [10%Z; 100%Z]
  ∧ upper_threshold Scenario.lower_end_moved = 100%Z
  ∧ ∃ st',
      update_data Scenario.lower_end_moved = Ok st'
      ∧ lower_threshold st' = 10%Z
      ∧ log st' =
          log Scenario.lower_end_moved
          ++ [EvDataChanged (view Scenario.lower_end_moved)]
      ∧ _threshold st' = _threshold Scenario.lower_end_moved.
Proof.
  split; [reflexivity|]. split; [reflexivity|].
  destruct (both_reset_same_upper_never_executes Scenario.lower_end_moved
              10%Z 100%Z)
    as ((st' & Hrun & Hlo & _ & Hlog & _ & Halg & _) & _); [reflexivity..|].
  exists st'. repeat split; assumption.
Defined.

Lemma first_update_same_upper_never_executes_witness :
  _get_data_range Scenario.preset_upper = Ok [0%Z; 100%Z]
  ∧ _first Scenario.preset_upper = true
  ∧ upper_threshold Scenario.preset_upper = 100%Z
  ∧ ∃ st',
      _update_ranges Scenario.preset_upper = Ok st'
      ∧ lower_threshold st' = 0%Z
      ∧ _first st' = false
      ∧ log st' = log Scenario.preset_upper
      ∧ _threshold st' = _threshold Scenario.preset_upper.
Proof.
  split; [reflexivity|]. split; [reflexivity|]. split; [reflexivity|].
  destruct (first_update_same_upper_never_executes Scenario.preset_upper
              0%Z 100%Z)
    as (st' & Hrun & _ & _ & Hlo & _ & Hfirst & Hlog & _ & Halg & _);
    [reflexivity..|].
  exists st'. repeat split; assumption.
Defined.

(** The algorithm of [Scenario.lower_end_moved] still works with the lower
    bound 0 after [update_data] has made 10 the lower threshold. *)
Example lower_end_moved_stale_bound :
  lower_threshold (Scenario.after (update_data Scenario.lower_end_moved))
    = 10%Z
  ∧ alg_lower
      (_threshold (Scenario.after (update_data Scenario.lower_end_moved)))
    = 0%Z
  ∧ executions
      (drop (length (log Scenario.lower_end_moved))
         (log (Scenario.after (update_data Scenario.lower_end_moved))))
    = 0.
Proof. by vm_compute. Qed.

(** The scenario of the spec: from [[0, 100]] to [[10, 90]] there is one
    more execution, with both new bounds. *)
Example both_ends_moved_one_execution :
  lower_threshold (Scenario.after (update_data Scenario.both_ends_moved))
    = 10%Z
  ∧ alg_lower
      (_threshold (Scenario.after (update_data Scenario.both_ends_moved)))
    = 10%Z
  ∧ alg_upper
      (_threshold (Scenario.after (update_data Scenario.both_ends_moved)))
    = 90%Z
  ∧ executions
      (drop (length (log Scenario.both_ends_moved))
         (log (Scenario.after (update_data Scenario.both_ends_moved))))
    = 1.
Proof. by vm_compute. Qed.

(** C4 as stated fails for [update_pipeline]: on its first run the handler
    of the upper threshold fires [data_changed] while [outputs] is still
    empty, and [_set_outputs] comes afterwards. *)
Lemma update_pipeline_notifies_before_outputs :
  ∃ st',
    update_pipeline (Scenario.new_Threshold [[Scenario.point_mesh 0 100]])
      = Ok st'
    ∧ log st' =
        [EvUpdate Ref_threshold; EvDataChanged [];
         EvSetOutputs [OutputOf Ref_threshold]]
    ∧ view st' =
        [(Ref_threshold, Some (Scenario.point_mesh 0 100), 0%Z, 100%Z)]
    ∧ ¬ notified_fresh
          (Scenario.new_Threshold [[Scenario.point_mesh 0 100]]) st'.
Proof.
  exists Scenario.initialised.
  split; [by vm_compute|]. split; [by vm_compute|]. split; [by vm_compute|].
  intros (evs & Hlog & Hall). vm_compute in Hlog. subst evs.
  apply Forall_cons in Hall as [_ Hall].
  apply Forall_cons in Hall as [Hseen _].
  specialize (Hseen [] eq_refl). vm_compute in Hseen. discriminate.
Qed.

Lemma setters_and_update_data_notify_fresh_witness :
  update_data Scenario.both_ends_moved
    = Ok (Scenario.after (update_data Scenario.both_ends_moved))
  ∧ notified_fresh Scenario.both_ends_moved
      (Scenario.after (update_data Scenario.both_ends_moved)).
Proof.
  assert (update_data Scenario.both_ends_moved
          = Ok (Scenario.after (update_data Scenario.both_ends_moved)))
    as Hrun by (vm_compute; reflexivity).
  split; [exact Hrun|].
  exact (proj2 (proj2 (setters_and_update_data_notify_fresh
                         Scenario.both_ends_moved
                         (Scenario.after
                            (update_data Scenario.both_ends_moved))))
           Hrun).
Defined.

(** C5 as stated fails for the threshold assignments: on a detached
    object the handler still configures and executes the active
    algorithm and notifies. *)
Lemma detached_lower_assignment_executes :
  inputs (Scenario.new_Threshold []) = []
  ∧ ∃ st',
      assign_lower_threshold true 5%Z (Scenario.new_Threshold []) = Ok st'
      ∧ log st' = [EvUpdate Ref_threshold; EvDataChanged []]
      ∧ executions (log st') = 1
      ∧ alg_lower (_threshold st') = 5%Z
      ∧ _threshold st' ≠ _threshold (Scenario.new_Threshold []).
Proof.
  split; [reflexivity|]. eexists. split; [by vm_compute|].
  repeat split; by vm_compute.
Qed.

Lemma detached_operations_witness :
  inputs (Scenario.new_Threshold []) = []
  ∧ update_pipeline (Scenario.new_Threshold [])
    = Ok (Scenario.new_Threshold [])
  ∧ assign_filter_type points (Scenario.new_Threshold [])
    = Ok (with_filter_type points (Scenario.new_Threshold []))
  ∧ ∃ st',
      assign_upper_threshold true 7%Z (Scenario.new_Threshold []) = Ok st'
      ∧ upper_threshold st' = 7%Z
      ∧ alg_upper (algo Ref_threshold st') = 7%Z.
Proof.
  destruct (detached_operations (Scenario.new_Threshold []) eq_refl)
    as ((Hpipe & _ & Htype & _) & _ & Hupper).
  split; [reflexivity|]. split; [exact Hpipe|]. split; [exact (Htype points)|].
  destruct (Hupper 7%Z) as (st' & Hrun & _ & Hup & _ & Halg & _);
    [reflexivity|done|].
  exists st'. repeat split; assumption.
Defined.

(** With the range check [low <= v <= high], a new range that lies wholly
    above the cached one is refused: [_data_min] is raised first, and the
    lower threshold is then checked against the old [_data_max]. *)
Example range_above_cached_raises :
  update_data
    (Scenario.upstream_shows (Scenario.point_mesh 200 300)
       Scenario.initialised)
  = Raise TraitError.
Proof. by vm_compute. Qed.

(** ** How the methods of [Threshold] compose *)

Section MoreThresholdFacts.

Context {V : Type} `{EqDecision V} {Dataset Geometry : Type}.
Context `{!Collaborators V Dataset Geometry}.

Local Abbreviation State := (Threshold V Dataset Geometry).

Lemma silent_view (st st' : State) : silent st st' → view st' = view st.
Proof.
  intros (_ & Hth & Hthp & Hout & _). unfold view. rewrite Hout.
  apply list_fmap_ext. intros _ [[]] _; cbn; by rewrite ?Hth, ?Hthp.
Qed.

Lemma silent_active (st st' : State) :
  silent st st' → _get_threshold_filter st' = _get_threshold_filter st.
Proof.
  intros (_ & _ & _ & _ & _ & Hft & _). unfold _get_threshold_filter.
  by rewrite Hft.
Qed.

Lemma silent_step (st st1 st' : State) :
  silent st st1 → step st1 st' → step st st'.
Proof.
  intros Hs (Hq & Hset & Hwire).
  pose proof (silent_view _ _ Hs) as Hview.
  pose proof (silent_active _ _ Hs) as Hact.
  destruct Hs as (Hlog & Hth & Hthp & Hout & Hin & Hft & Hl & Hu).
  destruct Hset as (Hin' & Hft' & Hl' & Hu').
  destruct Hwire as (Hout' & Hi & Hip).
  repeat split; try congruence.
  destruct Hq as [[Hq1 Hq2]|Hq]; [left|right]; [split|]; congruence.
Qed.

Lemma step_silent (st st1 st' : State) :
  step st st1 → silent st1 st' → step st st'.
Proof.
  intros (Hq & Hset & Hwire) Hs.
  pose proof (silent_view _ _ Hs) as Hview.
  destruct Hs as (Hlog & Hth & Hthp & Hout & Hin & Hft & Hl & Hu).
  destruct Hset as (Hin' & Hft' & Hl' & Hu').
  destruct Hwire as (Hout' & Hi & Hip).
  repeat split; try congruence.
  destruct Hq as [[Hq1 Hq2]|Hq]; [left|right]; [split|]; congruence.
Qed.

Lemma step_refl (st : State) : step st st.
Proof. repeat split. by left. Qed.

Lemma silent_is_step (st st' : State) : silent st st' → step st st'.
Proof. intros Hs. eapply silent_step; [exact Hs|apply step_refl]. Qed.

Lemma assign_lower_threshold_effect
    (notify : bool) (v : V) (st st' : State) :
  assign_lower_threshold notify v st = Ok st' →
  step st st'
  ∧ lower_threshold st' = v
  ∧ upper_threshold st' = upper_threshold st
  ∧ _data_min st' = _data_min st
  ∧ _data_max st' = _data_max st
  ∧ _first st' = _first st.
Proof.
  unfold assign_lower_threshold, _lower_threshold_changed, step,
    quiet_or_once, same_settings, same_wiring.
  destruct st as [ins outs ft lt ut arl aru dmin dmax th thp fst lg].
  cbn. destruct (in_range dmin dmax v); [|done].
  destruct (notify && bool_decide (v ≠ lt)).
  - destruct ft; cbv -[app fmap engine in_range range_read]; intros ?; simplify_eq;
      cbn; rewrite <- app_assoc; repeat split; by right.
  - intros ?; simplify_eq. cbn. repeat split; by left.
Qed.

Lemma assign_upper_threshold_effect
    (notify : bool) (v : V) (st st' : State) :
  assign_upper_threshold notify v st = Ok st' →
  step st st'
  ∧ lower_threshold st' = lower_threshold st
  ∧ upper_threshold st' = v
  ∧ _data_min st' = _data_min st
  ∧ _data_max st' = _data_max st
  ∧ _first st' = _first st.
Proof.
  unfold assign_upper_threshold, _upper_threshold_changed, step,
    quiet_or_once, same_settings, same_wiring.
  destruct st as [ins outs ft lt ut arl aru dmin dmax th thp fst lg].
  cbn. destruct (in_range dmin dmax v); [|done].
  destruct (notify && bool_decide (v ≠ ut)).
  - destruct ft; cbv -[app fmap engine in_range range_read]; intros ?; simplify_eq;
      cbn; rewrite <- app_assoc; repeat split; by right.
  - intros ?; simplify_eq. cbn. repeat split; by left.
Qed.

(** Storing a field of the object itself is a silent step. *)
Ltac by_silence := repeat split.

Ltac by_fields := cbn in *; repeat split; congruence.

Lemma update_ranges_range_effect (st st' : State) (lo hi : V) :
  _get_data_range st = Ok [lo; hi] →
  _update_ranges st = Ok st' →
  step st st'
  ∧ (if _first st
     then _data_min st' = lo ∧ _data_max st' = hi
          ∧ lower_threshold st' = lo ∧ upper_threshold st' = hi
          ∧ _first st' = false
     else _first st' = false
          ∧ (if auto_reset_lower st
             then _data_min st' = lo ∧ lower_threshold st' = lo
             else _data_min st' = _data_min st
                  ∧ lower_threshold st' = lower_threshold st)
          ∧ (if auto_reset_upper st
             then _data_max st' = hi ∧ upper_threshold st' = hi
             else _data_max st' = _data_max st
                  ∧ upper_threshold st' = upper_threshold st)).
Proof.
  intros Hdr. unfold _update_ranges. rewrite Hdr. clear Hdr. cbn.
  rewrite (bool_decide_eq_true_2 (0 < 2)) by lia.
  destruct (_first st) eqn:Hfirst.
  - destruct (assign_lower_threshold false lo _) as [st1|e] eqn:Hlo;
      cbn; [|done].
    apply assign_lower_threshold_silent in Hlo as ->.
    destruct (assign_upper_threshold true hi _) as [st2|e] eqn:Hhi;
      cbn; [|done].
    intros ?; simplify_eq.
    apply assign_upper_threshold_effect in Hhi
      as (Hs2 & Hl2 & Hu2 & Hmin2 & Hmax2 & Hf2).
    split; [|by_fields].
    eapply step_silent; [|by_silence].
    eapply silent_step; [|exact Hs2]. by_silence.
  - destruct (auto_reset_lower st) eqn:Harl.
    + cbn. destruct (auto_reset_upper st) eqn:Haru; cbn.
      * destruct (assign_lower_threshold false lo _) as [st1|e] eqn:Hlo;
          cbn; [|done].
        apply assign_lower_threshold_silent in Hlo as ->. cbn.
        rewrite Haru. intros Hhi.
        apply assign_upper_threshold_effect in Hhi
          as (Hs2 & Hl2 & Hu2 & Hmin2 & Hmax2 & Hf2).
        split; [|by_fields].
        eapply silent_step; [|exact Hs2]. by_silence.
      * destruct (assign_lower_threshold true lo _) as [st1|e] eqn:Hlo;
          cbn; [|done].
        apply assign_lower_threshold_effect in Hlo
          as (Hs1 & Hl1 & Hu1 & Hmin1 & Hmax1 & Hf1).
        assert (auto_reset_upper st1 = false) as ->.
        { destruct Hs1 as (_ & (_ & _ & _ & Hflag) & _).
          rewrite Hflag. exact Haru. }
        intros ?; simplify_eq. split; [|by_fields].
        eapply silent_step; [|exact Hs1]. by_silence.
    + cbn. destruct (auto_reset_upper st) eqn:Haru.
      * intros Hhi.
        apply assign_upper_threshold_effect in Hhi
          as (Hs2 & Hl2 & Hu2 & Hmin2 & Hmax2 & Hf2).
        split; [|by_fields].
        eapply silent_step; [|exact Hs2]. by_silence.
      * intros ?; simplify_eq. split; [apply step_refl|by_fields].
Qed.

Lemma get_data_range_shape (st : State) (dr : list V) :
  _get_data_range st = Ok dr → dr = [] ∨ ∃ lo hi, dr = [lo; hi].
Proof.
  unfold _get_data_range. destruct (upstream st) as [input|e]; cbn; [|done].
  destruct (point_data_scalars input) as [ps|];
    [|destruct (cell_data_scalars input) as [cs|]];
    intros ?; simplify_eq; eauto.
Qed.

Lemma update_ranges_step (st st' : State) :
  _update_ranges st = Ok st' →
  step st st' ∧ (_first st = false → _first st' = false).
Proof.
  intros Hrun.
  destruct (_get_data_range st) as [dr|e] eqn:Hdr.
  - destruct (get_data_range_shape st dr Hdr) as [->|(lo & hi & ->)].
    + rewrite (update_ranges_empty_range st Hdr) in Hrun. simplify_eq.
      split; [apply step_refl|done].
    + destruct (update_ranges_range_effect st st' lo hi Hdr Hrun)
        as [Hstep Hfields].
      split; [exact Hstep|]. intros Hfirst. rewrite Hfirst in Hfields.
      by destruct Hfields.
  - unfold _update_ranges in Hrun. by rewrite Hdr in Hrun.
Qed.

Lemma assign_lower_threshold_returns (notify : bool) (v : V) (st : State) :
  in_range (_data_min st) (_data_max st) v = true →
  ∃ st', assign_lower_threshold notify v st = Ok st'.
Proof.
  unfold assign_lower_threshold, _lower_threshold_changed. intros ->.
  destruct (notify && _); eauto.
Qed.

Lemma assign_upper_threshold_returns (notify : bool) (v : V) (st : State) :
  in_range (_data_min st) (_data_max st) v = true →
  ∃ st', assign_upper_threshold notify v st = Ok st'.
Proof.
  unfold assign_upper_threshold, _upper_threshold_changed. intros ->.
  destruct (notify && _); eauto.
Qed.

Lemma update_ranges_returns (st : State) (lo hi : V) :
  _get_data_range st = Ok [lo; hi] →
  (if _first st
   then in_range lo hi lo = true ∧ in_range lo hi hi = true
   else (auto_reset_lower st = true → in_range lo (_data_max st) lo = true)
        ∧ (auto_reset_upper st = true →
           in_range (if auto_reset_lower st then lo else _data_min st) hi hi
           = true)) →
  ∃ st', _update_ranges st = Ok st'.
Proof.
  intros Hdr. unfold _update_ranges. rewrite Hdr. clear Hdr. cbn.
  rewrite (bool_decide_eq_true_2 (0 < 2)) by lia.
  destruct (_first st).
  - intros [Hlo Hhi].
    destruct (assign_lower_threshold_returns false lo
                (with_data_max hi (with_data_min lo st)) Hlo) as [st1 Hst1].
    rewrite Hst1. cbn.
    pose proof (assign_lower_threshold_effect _ _ _ _ Hst1)
      as (_ & _ & _ & Hmin & Hmax & _).
    destruct (assign_upper_threshold_returns true hi st1) as [st2 Hst2].
    { by rewrite Hmin, Hmax. }
    rewrite Hst2. cbn. eauto.
  - intros [Hlo Hhi]. destruct (auto_reset_lower st) eqn:Harl; cbn.
    + destruct (assign_lower_threshold_returns
                  (negb (auto_reset_upper st)) lo (with_data_min lo st))
        as [st1 Hst1]; [by apply Hlo|].
      rewrite Hst1. cbn.
      pose proof (assign_lower_threshold_effect _ _ _ _ Hst1)
        as ((_ & (_ & _ & _ & Haru) & _) & _ & _ & Hmin & Hmax & _).
      cbn in Haru, Hmin, Hmax. rewrite Haru.
      destruct (auto_reset_upper st); [|eauto].
      apply assign_upper_threshold_returns. cbn. rewrite Hmin. by apply Hhi.
    + destruct (auto_reset_upper st); [|eauto].
      apply assign_upper_threshold_returns. cbn. by apply Hhi.
Qed.

(** C6.  The range the recompute works with is the range of the point
    scalars when there are any, else the range of the cell scalars when
    there are any, else the empty list.  With the empty list
    [_update_ranges] returns the object as it was.  With a selected range
    [(lo, hi)] it is the two ends of that range that [_update_ranges]
    stores: both on the first update, and afterwards the end of each side
    whose auto-reset flag is on; and [_update_ranges] does return when
    the range checks of the assignments it makes are passed. *)
Theorem data_range_point_then_cell (st : State) (input : Dataset) :
  upstream st = Ok input →
  _get_data_range st =
    Ok (match point_data_scalars input, cell_data_scalars input with
        | Some ps, _ => [(range ps).1; (range ps).2]
        | None, Some cs => [(range cs).1; (range cs).2]
        | None, None => []
        end)
  ∧ (point_data_scalars input = None → cell_data_scalars input = None →
     _get_data_range st = Ok [] ∧ _update_ranges st = Ok st)
  ∧ (∀ lo hi,
       selected_range input = Some (lo, hi) →
       _get_data_range st = Ok [lo; hi]
       ∧ (∀ st',
            _update_ranges st = Ok st' →
            if _first st
            then _data_min st' = lo ∧ _data_max st' = hi
                 ∧ lower_threshold st' = lo ∧ upper_threshold st' = hi
                 ∧ _first st' = false
            else _first st' = false
                 ∧ (if auto_reset_lower st
                    then _data_min st' = lo ∧ lower_threshold st' = lo
                    else _data_min st' = _data_min st
                         ∧ lower_threshold st' = lower_threshold st)
                 ∧ (if auto_reset_upper st
                    then _data_max st' = hi ∧ upper_threshold st' = hi
                    else _data_max st' = _data_max st
                         ∧ upper_threshold st' = upper_threshold st))
       ∧ ((if _first st
           then in_range lo hi lo = true ∧ in_range lo hi hi = true
           else (auto_reset_lower st = true →
                 in_range lo (_data_max st) lo = true)
                ∧ (auto_reset_upper st = true →
                   in_range (if auto_reset_lower st then lo
                             else _data_min st) hi hi = true)) →
          ∃ st', _update_ranges st = Ok st')).
Proof.
  intros Hup.
  assert (_get_data_range st =
            Ok (match point_data_scalars input, cell_data_scalars input with
                | Some ps, _ => [(range ps).1; (range ps).2]
                | None, Some cs => [(range cs).1; (range cs).2]
                | None, None => []
                end)) as Hdr.
  { unfold _get_data_range. rewrite Hup. cbn.
    by destruct (point_data_scalars input), (cell_data_scalars input). }
  split; [exact Hdr|]. split.
  - intros Hps Hcs. rewrite Hps, Hcs in Hdr.
    split; [exact Hdr|by apply update_ranges_empty_range].
  - intros lo hi Hsel.
    assert (_get_data_range st = Ok [lo; hi]) as Hdr'.
    { rewrite Hdr. revert Hsel. unfold selected_range.
      destruct (point_data_scalars input) as [[[]]|];
        [|destruct (cell_data_scalars input) as [[[]]|]];
        cbn; by intros [= -> ->]. }
    split; [exact Hdr'|]. split.
    + intros st' Hrun.
      by destruct (update_ranges_range_effect st st' lo hi Hdr' Hrun).
    + by apply update_ranges_returns.
Qed.

(** X1.  [_update_ranges] executes at most once: when it returns, it has
    either logged nothing, or one execution of the active algorithm
    followed by one notification; it leaves the inputs, the filter type,
    the two flags, [outputs] and the inputs of both algorithms as they
    were. *)
Theorem update_ranges_at_most_one_execution (st st' : State) :
  _update_ranges st = Ok st' →
  quiet_or_once st st' ∧ same_settings st st' ∧ same_wiring st st'.
Proof. intros Hrun. by destruct (update_ranges_step st st' Hrun). Qed.

(** X2.  The first update takes both thresholds and the cached range from
    the data whatever the auto-reset flags say, and clears [_first]. *)
Theorem first_update_overrides_thresholds (st st' : State) (lo hi : V) :
  _get_data_range st = Ok [lo; hi] →
  _first st = true →
  _update_ranges st = Ok st' →
  _data_min st' = lo ∧ _data_max st' = hi
  ∧ lower_threshold st' = lo ∧ upper_threshold st' = hi
  ∧ _first st' = false
  ∧ auto_reset_lower st' = auto_reset_lower st
  ∧ auto_reset_upper st' = auto_reset_upper st.
Proof.
  intros Hdr Hfirst Hrun.
  destruct (update_ranges_range_effect st st' lo hi Hdr Hrun)
    as [(_ & (_ & _ & Hl & Hu) & _) Hfields].
  rewrite Hfirst in Hfields.
  destruct Hfields as (? & ? & ? & ? & ?). done.
Qed.

(** X3.  After the first update each side follows its own flag: with the
    flag on, the cached end and the threshold of that side become the end
    of the new range; with the flag off, the cached end and the stored
    threshold stay what they were, and what a read of the threshold gives
    is the stored value brought inside the cached range as it is now. *)
Theorem later_updates_follow_flags (st st' : State) (lo hi : V) :
  _get_data_range st = Ok [lo; hi] →
  _first st = false →
  _update_ranges st = Ok st' →
  (if auto_reset_lower st
   then _data_min st' = lo ∧ lower_threshold st' = lo
   else _data_min st' = _data_min st
        ∧ lower_threshold st' = lower_threshold st
        ∧ read_lower_threshold st'
          = range_read (_data_min st) (_data_max st') (lower_threshold st))
  ∧ (if auto_reset_upper st
     then _data_max st' = hi ∧ upper_threshold st' = hi
     else _data_max st' = _data_max st
          ∧ upper_threshold st' = upper_threshold st
          ∧ read_upper_threshold st'
            = range_read (_data_min st') (_data_max st)
                (upper_threshold st)).
Proof.
  intros Hdr Hfirst Hrun.
  destruct (update_ranges_range_effect st st' lo hi Hdr Hrun)
    as [_ Hfields].
  rewrite Hfirst in Hfields. destruct Hfields as (_ & Hlower & Hupper).
  unfold read_lower_threshold, read_upper_threshold.
  split.
  - destruct (auto_reset_lower st); [exact Hlower|].
    destruct Hlower as [-> ->]. done.
  - destruct (auto_reset_upper st); [exact Hupper|].
    destruct Hupper as [-> ->]. done.
Qed.

(** X4.  An attached [update_data] that returns leaves settings and wiring
    alone and always ends with a notification: it logs either that
    notification alone, or one execution of the active algorithm and its
    notification before it. *)
Theorem update_data_effect (st st' : State) :
  inputs st ≠ [] →
  update_data st = Ok st' →
  same_settings st st' ∧ same_wiring st st'
  ∧ ((log st' = log st ++ [EvDataChanged (view st)] ∧ view st' = view st)
     ∨ log st' =
         log st ++ [EvUpdate (_get_threshold_filter st);
                    EvDataChanged (view st'); EvDataChanged (view st')]).
Proof.
  intros Hin. unfold update_data.
  rewrite bool_decide_eq_false_2
    by (destruct (inputs st); [done|cbn; lia]).
  destruct (_update_ranges st) as [st1|e] eqn:Hrun; cbn; [|done].
  intros ?; simplify_eq.
  destruct (update_ranges_step st st1 Hrun) as [(Hq & Hset & Hwire) _].
  split; [exact Hset|]. split; [exact Hwire|].
  destruct Hq as [[Hlog Hview]|Hlog]; [left|right].
  - split; [cbn; by rewrite Hlog, Hview|exact Hview].
  - cbn. rewrite Hlog, <- app_assoc. done.
Qed.

Lemma fil_set_input_settings (fil : AlgoRef) (input : Dataset) (st : State) :
  same_settings st (fil_set_input fil input st)
  ∧ log (fil_set_input fil input st) = log st
  ∧ outputs (fil_set_input fil input st) = outputs st
  ∧ _first (fil_set_input fil input st) = _first st
  ∧ alg_input (algo fil (fil_set_input fil input st)) = Some input
  ∧ (∀ other, other ≠ fil →
       algo other (fil_set_input fil input st) = algo other st)
  ∧ alg_output (algo fil (fil_set_input fil input st))
    = alg_output (algo fil st).
Proof.
  destruct fil; repeat split; try done; intros []; done.
Qed.

(** X5.  An [update_pipeline] that returns, on an object with an upstream
    dataset, has bound the input of the active algorithm to that dataset
    and made that algorithm's output the only element of [outputs]; the
    settings are untouched and the algorithm was executed at most once,
    before [outputs] was assigned. *)
Theorem update_pipeline_effect (st st' : State) (input : Dataset) :
  upstream st = Ok input →
  update_pipeline st = Ok st' →
  same_settings st st'
  ∧ outputs st' = [OutputOf (_get_threshold_filter st)]
  ∧ alg_input (algo (_get_threshold_filter st) st') = Some input
  ∧ (log st' =
       log st ++ [EvSetOutputs [OutputOf (_get_threshold_filter st)]]
     ∨ ∃ seen,
         log st' =
           log st ++ [EvUpdate (_get_threshold_filter st);
                      EvDataChanged seen;
                      EvSetOutputs [OutputOf (_get_threshold_filter st)]]).
Proof.
  intros Hup. unfold update_pipeline.
  rewrite (upstream_inputs st input Hup), Hup. cbn.
  remember (_get_threshold_filter st) as fil eqn:Hfil.
  destruct (fil_set_input_settings fil input st)
    as (Hset0 & Hlog0 & Hout0 & _ & Hin0 & _ & _).
  destruct (_update_ranges (fil_set_input fil input st)) as [st1|e] eqn:Hrun;
    cbn; [|done].
  intros [= <-].
  destruct (update_ranges_step _ st1 Hrun) as [(Hq & Hset & Hwire) _].
  assert (filter_type (fil_set_input fil input st) = filter_type st)
    as Hft0 by (by destruct Hset0 as (_ & ? & _)).
  assert (filter_type st1 = filter_type st) as Hft1.
  { destruct Hset as (_ & Hft & _). by rewrite Hft. }
  assert (_get_threshold_filter st1 = fil) as Hact.
  { rewrite Hfil. unfold _get_threshold_filter. by rewrite Hft1. }
  assert (_get_threshold_filter (fil_set_input fil input st) = fil) as Hact0.
  { rewrite Hfil at 2. unfold _get_threshold_filter. by rewrite Hft0. }
  rewrite Hact.
  destruct Hset as (Hi & Hf & Hl & Hu).
  destruct Hset0 as (Hi0 & Hf0 & Hl0 & Hu0).
  destruct Hwire as (Hout & Hth & Hthp).
  split; [repeat split; cbn; congruence|].
  split; [done|]. split.
  - transitivity (alg_input (algo fil (fil_set_input fil input st)));
      [|exact Hin0].
    clear -Hth Hthp. destruct fil; [exact Hth|exact Hthp].
  - destruct Hq as [[Hlog _]|Hlog]; [left|right].
    + cbn. by rewrite Hlog, Hlog0.
    + eexists. cbn. rewrite Hlog, Hlog0, Hact0, <- app_assoc. done.
Qed.

(** X6.  When the first input node has no outputs, every method that
    looks at the upstream dataset raises [IndexError]: the guards only
    test that there is an input. *)
Theorem missing_upstream_dataset_raises
    (st : State) (rest : list (list Dataset)) :
  inputs st = [] :: rest →
  update_pipeline st = Raise IndexError
  ∧ update_data st = Raise IndexError
  ∧ _auto_reset_lower_changed true st = Raise IndexError
  ∧ _auto_reset_upper_changed true st = Raise IndexError
  ∧ (∀ old new, _threshold_filter_changed old new st = Raise IndexError).
Proof.
  intros Hin.
  assert (upstream st = Raise IndexError) as Hup.
  { unfold upstream. by rewrite Hin. }
  assert (_get_data_range st = Raise IndexError) as Hdr.
  { unfold _get_data_range. by rewrite Hup. }
  assert (bool_decide (length (inputs st) = 0) = false) as Hlen.
  { rewrite Hin. by apply bool_decide_eq_false_2. }
  repeat split.
  - unfold update_pipeline. by rewrite Hlen, Hup.
  - unfold update_data, _update_ranges. by rewrite Hlen, Hdr.
  - unfold _auto_reset_lower_changed. by rewrite Hlen, Hdr.
  - unfold _auto_reset_upper_changed. by rewrite Hlen, Hdr.
  - intros old new. unfold _threshold_filter_changed. by rewrite Hlen, Hup.
Qed.

Lemma assign_lower_threshold_raises
    (notify : bool) (v : V) (st : State) (e : Exn) :
  assign_lower_threshold notify v st = Raise e →
  e = TraitError ∧ in_range (_data_min st) (_data_max st) v = false.
Proof.
  unfold assign_lower_threshold, _lower_threshold_changed.
  destruct (in_range _ _ _); [|by intros [= <-]].
  by destruct (notify && _).
Qed.

Lemma assign_upper_threshold_raises
    (notify : bool) (v : V) (st : State) (e : Exn) :
  assign_upper_threshold notify v st = Raise e →
  e = TraitError ∧ in_range (_data_min st) (_data_max st) v = false.
Proof.
  unfold assign_upper_threshold, _upper_threshold_changed.
  destruct (in_range _ _ _); [|by intros [= <-]].
  by destruct (notify && _).
Qed.

(** X7.  [_update_ranges] fails in two ways only: with [IndexError] when
    there is no upstream dataset, and with [TraitError] when a threshold
    is refused by the range check; it never fails on the shape of the
    range. *)
Theorem update_ranges_errors (st : State) (e : Exn) :
  _update_ranges st = Raise e →
  (e = IndexError ∧ upstream st = Raise IndexError)
  ∨ (e = TraitError ∧ ∃ input, upstream st = Ok input).
Proof.
  destruct (upstream st) as [input|e0] eqn:Hup.
  - intros Hrun. right. split; [|by eexists].
    destruct (_get_data_range st) as [dr|e1] eqn:Hdr.
    + destruct (get_data_range_shape st dr Hdr) as [->|(lo & hi & ->)].
      { by rewrite (update_ranges_empty_range st Hdr) in Hrun. }
      revert Hrun. unfold _update_ranges. rewrite Hdr. cbn.
      rewrite (bool_decide_eq_true_2 (0 < 2)) by lia.
      destruct (_first st).
      * destruct (assign_lower_threshold false lo _) as [st1|e1] eqn:Hlo;
          cbn.
        -- destruct (assign_upper_threshold true hi st1) as [st2|e2] eqn:Hhi;
             cbn; [done|].
           intros [= <-]. by destruct (assign_upper_threshold_raises _ _ _ _ Hhi).
        -- intros [= <-]. by destruct (assign_lower_threshold_raises _ _ _ _ Hlo).
      * destruct (auto_reset_lower st).
        -- destruct (assign_lower_threshold _ lo _) as [st1|e1] eqn:Hlo;
             cbn.
           ++ destruct (auto_reset_upper st1); [|done].
              intros Hhi. by destruct (assign_upper_threshold_raises _ _ _ _ Hhi).
           ++ intros [= <-]. by destruct (assign_lower_threshold_raises _ _ _ _ Hlo).
        -- cbn. destruct (auto_reset_upper st); [|done].
           intros Hhi. by destruct (assign_upper_threshold_raises _ _ _ _ Hhi).
    + unfold _get_data_range in Hdr. rewrite Hup in Hdr. cbn in Hdr.
      by repeat case_match.
  - unfold _update_ranges, _get_data_range. rewrite Hup. cbn.
    intros [= <-]. left.
    revert Hup. unfold upstream, index.
    destruct (inputs st !! 0) as [node|]; cbn; [|by intros [= <-]].
    destruct (node !! 0); by intros [= <-].
Qed.

(** X8.  After the first update, with only [auto_reset_lower] on, the
    lower threshold follows the lower end of the range and notifies by
    itself: when the value changes, the active algorithm is executed once
    with the new lower bound and the upper threshold as it is read.  The
    stored upper threshold and the cached maximum are not touched; what
    a read of the upper threshold gives is the stored value brought
    inside the new cached range. *)
Theorem only_lower_reset (st : State) (lo hi : V) :
  _get_data_range st = Ok [lo; hi] →
  _first st = false →
  auto_reset_lower st = true →
  auto_reset_upper st = false →
  in_range lo (_data_max st) lo = true →
  ∃ st',
    _update_ranges st = Ok st'
    ∧ _data_min st' = lo
    ∧ lower_threshold st' = lo
    ∧ read_lower_threshold st' = lo
    ∧ _data_max st' = _data_max st
    ∧ upper_threshold st' = upper_threshold st
    ∧ read_upper_threshold st'
      = range_read lo (_data_max st) (upper_threshold st)
    ∧ (lo = lower_threshold st → log st' = log st)
    ∧ (lo ≠ lower_threshold st →
       log st' =
         log st ++ [EvUpdate (_get_threshold_filter st);
                    EvDataChanged (view st')]
       ∧ alg_lower (algo (_get_threshold_filter st) st') = lo
       ∧ alg_upper (algo (_get_threshold_filter st) st')
         = range_read lo (_data_max st) (upper_threshold st)).
Proof.
  intros Hdr Hfirst Harl Haru Hlo.
  pose proof (range_read_accepted _ _ _ Hlo) as Hread.
  unfold _update_ranges. rewrite Hdr. clear Hdr.
  destruct st as [ins outs ft lt ut arl aru dmin dmax th thp fst lg].
  cbn in *. subst. cbn.
  unfold assign_lower_threshold. cbn. rewrite Hlo. cbn.
  destruct (decide (lo = lt)) as [->|Hne].
  - rewrite bool_decide_ne_same. cbn. eexists. split; [reflexivity|].
    unfold read_lower_threshold, read_upper_threshold. cbn.
    repeat split; done.
  - rewrite (bool_decide_eq_true_2 (lo ≠ lt)) by done.
    unfold _lower_threshold_changed, _get_threshold_filter.
    destruct ft; cbv -[app fmap engine in_range range_read];
      (eexists; split; [reflexivity|]); cbn; rewrite <- app_assoc;
      repeat split; done.
Qed.

Lemma assign_lower_threshold_run (v : V) (st st' : State) :
  assign_lower_threshold true v st = Ok st' →
  v ≠ lower_threshold st →
  alg_lower (algo (_get_threshold_filter st) st') = v
  ∧ alg_upper (algo (_get_threshold_filter st) st') = read_upper_threshold st
  ∧ log st' =
      log st ++ [EvUpdate (_get_threshold_filter st);
                 EvDataChanged (view st')].
Proof.
  unfold assign_lower_threshold, _lower_threshold_changed,
    read_upper_threshold, _get_threshold_filter.
  destruct st as [ins outs ft lt ut arl aru dmin dmax th thp fst lg].
  cbn. destruct (in_range dmin dmax v); [|done]. intros Hrun Hne.
  rewrite (bool_decide_eq_true_2 (v ≠ lt)) in Hrun by done.
  revert Hrun.
  destruct ft; cbv -[app fmap engine in_range range_read];
    intros [= <-]; cbn; rewrite <- app_assoc; done.
Qed.

Lemma assign_upper_threshold_run (v : V) (st st' : State) :
  assign_upper_threshold true v st = Ok st' →
  v ≠ upper_threshold st →
  alg_lower (algo (_get_threshold_filter st) st') = read_lower_threshold st
  ∧ alg_upper (algo (_get_threshold_filter st) st') = v
  ∧ log st' =
      log st ++ [EvUpdate (_get_threshold_filter st);
                 EvDataChanged (view st')].
Proof.
  unfold assign_upper_threshold, _upper_threshold_changed,
    read_lower_threshold, _get_threshold_filter.
  destruct st as [ins outs ft lt ut arl aru dmin dmax th thp fst lg].
  cbn. destruct (in_range dmin dmax v); [|done]. intros Hrun Hne.
  rewrite (bool_decide_eq_true_2 (v ≠ ut)) in Hrun by done.
  revert Hrun.
  destruct ft; cbv -[app fmap engine in_range range_read];
    intros [= <-]; cbn; rewrite <- app_assoc; done.
Qed.

(** X9.  Switching an auto-reset flag on, on data with scalars, caches the
    matching end of the range and assigns it to the threshold of that
    side.  The cached end and the stored threshold of the other side are
    not touched, but what a read of the other threshold gives is the
    stored value brought inside the cached range as it is now, and that
    is what the algorithm is given when the assignment changes the
    threshold.  A value that the range check refuses makes the handler
    raise [TraitError] after the end of the range was cached; the
    assignment of the flag then returns with the exception logged. *)
Theorem auto_reset_on_snaps_bound (st : State) (lo hi : V) :
  _get_data_range st = Ok [lo; hi] →
  (∀ st', _auto_reset_lower_changed true st = Ok st' →
     step st st' ∧ _data_min st' = lo ∧ lower_threshold st' = lo
     ∧ _data_max st' = _data_max st
     ∧ upper_threshold st' = upper_threshold st
     ∧ read_lower_threshold st' = lo
     ∧ read_upper_threshold st'
       = range_read lo (_data_max st) (upper_threshold st)
     ∧ (lo ≠ lower_threshold st →
        alg_lower (algo (_get_threshold_filter st) st') = lo
        ∧ alg_upper (algo (_get_threshold_filter st) st')
          = range_read lo (_data_max st) (upper_threshold st)
        ∧ log st' =
            log st ++ [EvUpdate (_get_threshold_filter st);
                       EvDataChanged (view st')]))
  ∧ (∀ st', _auto_reset_upper_changed true st = Ok st' →
       step st st' ∧ _data_max st' = hi ∧ upper_threshold st' = hi
       ∧ _data_min st' = _data_min st
       ∧ lower_threshold st' = lower_threshold st
       ∧ read_upper_threshold st' = hi
       ∧ read_lower_threshold st'
         = range_read (_data_min st) hi (lower_threshold st)
       ∧ (hi ≠ upper_threshold st →
          alg_lower (algo (_get_threshold_filter st) st')
          = range_read (_data_min st) hi (lower_threshold st)
          ∧ alg_upper (algo (_get_threshold_filter st) st') = hi
          ∧ log st' =
              log st ++ [EvUpdate (_get_threshold_filter st);
                         EvDataChanged (view st')]))
  ∧ (_auto_reset_lower_changed true st
       = assign_lower_threshold true lo (with_data_min lo st))
  ∧ (_auto_reset_upper_changed true st
       = assign_upper_threshold true hi (with_data_max hi st))
  ∧ (in_range lo (_data_max st) lo = false →
     _auto_reset_lower_changed true st = Raise TraitError
     ∧ (auto_reset_lower st = false →
        assign_auto_reset_lower true st
        = Ok (emit (EvException TraitError)
                (with_data_min lo (with_auto_reset_lower true st)))))
  ∧ (in_range (_data_min st) hi hi = false →
     _auto_reset_upper_changed true st = Raise TraitError
     ∧ (auto_reset_upper st = false →
        assign_auto_reset_upper true st
        = Ok (emit (EvException TraitError)
                (with_data_max hi (with_auto_reset_upper true st))))).
Proof.
  intros Hdr. pose proof (get_data_range_inputs st _ Hdr) as Hlen.
  assert (∀ s : State, inputs s = inputs st →
            _auto_reset_lower_changed true s
            = assign_lower_threshold true lo (with_data_min lo s)) as Hlo.
  { intros s Hs. unfold _auto_reset_lower_changed.
    rewrite (get_data_range_same_inputs s st Hs), Hs, Hlen, Hdr. done. }
  assert (∀ s : State, inputs s = inputs st →
            _auto_reset_upper_changed true s
            = assign_upper_threshold true hi (with_data_max hi s)) as Hhi.
  { intros s Hs. unfold _auto_reset_upper_changed.
    rewrite (get_data_range_same_inputs s st Hs), Hs, Hlen, Hdr. done. }
  split; [|split; [|split; [by apply Hlo|split; [by apply Hhi|split]]]].
  - intros st'. rewrite Hlo by done. intros Hrun.
    assert (in_range lo (_data_max st) lo = true) as Hok.
    { revert Hrun. unfold assign_lower_threshold. cbn.
      by destruct (in_range _ _ _). }
    pose proof (assign_lower_threshold_run _ _ _ Hrun) as Halg.
    apply assign_lower_threshold_effect in Hrun
      as (Hs & Hl & Hu & Hmin & Hmax & _).
    unfold read_lower_threshold, read_upper_threshold.
    rewrite Hl, Hu, Hmin, Hmax. cbn.
    split; [eapply silent_step; [|exact Hs]; by_silence|].
    do 4 (split; [done|]). split; [by apply range_read_accepted|].
    split; [done|]. exact Halg.
  - intros st'. rewrite Hhi by done. intros Hrun.
    assert (in_range (_data_min st) hi hi = true) as Hok.
    { revert Hrun. unfold assign_upper_threshold. cbn.
      by destruct (in_range _ _ _). }
    pose proof (assign_upper_threshold_run _ _ _ Hrun) as Halg.
    apply assign_upper_threshold_effect in Hrun
      as (Hs & Hl & Hu & Hmin & Hmax & _).
    unfold read_lower_threshold, read_upper_threshold.
    rewrite Hl, Hu, Hmin, Hmax. cbn.
    split; [eapply silent_step; [|exact Hs]; by_silence|].
    do 4 (split; [done|]). split; [by apply range_read_accepted|].
    split; [done|]. exact Halg.
  - intros Hno.
    assert (∀ s : State, inputs s = inputs st → _data_max s = _data_max st →
              _auto_reset_lower_changed true s = Raise TraitError) as Hraise.
    { intros s Hs Hmax. rewrite Hlo by done.
      unfold assign_lower_threshold. cbn. by rewrite Hmax, Hno. }
    split; [by apply Hraise|]. intros Hoff.
    unfold assign_auto_reset_lower. rewrite Hoff.
    rewrite (bool_decide_eq_true_2 (true ≠ false)) by done.
    rewrite Hraise by done.
    unfold _auto_reset_lower_interrupted.
    rewrite (get_data_range_same_inputs (with_auto_reset_lower true st) st)
      by done.
    by rewrite Hdr.
  - intros Hno.
    assert (∀ s : State, inputs s = inputs st → _data_min s = _data_min st →
              _auto_reset_upper_changed true s = Raise TraitError) as Hraise.
    { intros s Hs Hmin. rewrite Hhi by done.
      unfold assign_upper_threshold. cbn. by rewrite Hmin, Hno. }
    split; [by apply Hraise|]. intros Hoff.
    unfold assign_auto_reset_upper. rewrite Hoff.
    rewrite (bool_decide_eq_true_2 (true ≠ false)) by done.
    rewrite Hraise by done.
    unfold _auto_reset_upper_interrupted.
    rewrite (get_data_range_same_inputs (with_auto_reset_upper true st) st)
      by done.
    by rewrite Hdr.
Qed.

Lemma threshold_filter_changed_first (old new : AlgoRef) (st st' : State) :
  _threshold_filter_changed old new st = Ok st' → _first st' = _first st.
Proof.
  unfold _threshold_filter_changed.
  destruct (bool_decide _); [by intros [= <-]|].
  destruct (upstream st) as [input|e]; cbn; [|done].
  intros [= <-]. by destruct new.
Qed.

(** Where an auto-reset handler can raise, and what it has stored by
    then: nothing when the range cannot be had or indexed, the end of the
    range when the threshold is refused. *)
Lemma auto_reset_lower_changed_raises (st : State) (e : Exn) :
  _auto_reset_lower_changed true st = Raise e →
  (e = IndexError ∧ _auto_reset_lower_interrupted st = st)
  ∨ (e = TraitError
     ∧ ∃ lo hi,
         _get_data_range st = Ok [lo; hi]
         ∧ _auto_reset_lower_interrupted st = with_data_min lo st).
Proof.
  unfold _auto_reset_lower_changed, _auto_reset_lower_interrupted.
  destruct (bool_decide _); [done|].
  destruct (_get_data_range st) as [dr|e0] eqn:Hdr; cbn.
  - destruct (get_data_range_shape st dr Hdr) as [->|(lo & hi & ->)]; cbn.
    + intros [= <-]. by left.
    + intros Hrun. right.
      destruct (assign_lower_threshold_raises _ _ _ _ Hrun) as [-> _].
      split; [done|]. by exists lo, hi.
  - intros [= <-]. left. split; [|done].
    revert Hdr. unfold _get_data_range, upstream, index.
    destruct (inputs st !! 0) as [node|]; cbn; [|by intros [= <-]].
    destruct (node !! 0); cbn; [by repeat case_match|by intros [= <-]].
Qed.

Lemma auto_reset_upper_changed_raises (st : State) (e : Exn) :
  _auto_reset_upper_changed true st = Raise e →
  (e = IndexError ∧ _auto_reset_upper_interrupted st = st)
  ∨ (e = TraitError
     ∧ ∃ lo hi,
         _get_data_range st = Ok [lo; hi]
         ∧ _auto_reset_upper_interrupted st = with_data_max hi st).
Proof.
  unfold _auto_reset_upper_changed, _auto_reset_upper_interrupted.
  destruct (bool_decide _); [done|].
  destruct (_get_data_range st) as [dr|e0] eqn:Hdr; cbn.
  - destruct (get_data_range_shape st dr Hdr) as [->|(lo & hi & ->)]; cbn.
    + intros [= <-]. by left.
    + intros Hrun. right.
      destruct (assign_upper_threshold_raises _ _ _ _ Hrun) as [-> _].
      split; [done|]. by exists lo, hi.
  - intros [= <-]. left. split; [|done].
    revert Hdr. unfold _get_data_range, upstream, index.
    destruct (inputs st !! 0) as [node|]; cbn; [|by intros [= <-]].
    destruct (node !! 0); cbn; [by repeat case_match|by intros [= <-]].
Qed.

Lemma auto_reset_lower_changed_first (value : bool) (st st' : State) :
  _auto_reset_lower_changed value st = Ok st' → _first st' = _first st.
Proof.
  unfold _auto_reset_lower_changed.
  destruct (bool_decide _); [by intros [= <-]|].
  destruct value; [|by intros [= <-]].
  destruct (_get_data_range _) as [dr|e]; cbn; [|done].
  destruct (index dr 0) as [dr0|e]; cbn; [|done].
  intros Hrun.
  by apply assign_lower_threshold_effect in Hrun as (_ & _ & _ & _ & _ & ->).
Qed.

Lemma auto_reset_upper_changed_first (value : bool) (st st' : State) :
  _auto_reset_upper_changed value st = Ok st' → _first st' = _first st.
Proof.
  unfold _auto_reset_upper_changed.
  destruct (bool_decide _); [by intros [= <-]|].
  destruct value; [|by intros [= <-]].
  destruct (_get_data_range _) as [dr|e]; cbn; [|done].
  destruct (index dr 1) as [dr1|e]; cbn; [|done].
  intros Hrun.
  by apply assign_upper_threshold_effect in Hrun as (_ & _ & _ & _ & _ & ->).
Qed.

Lemma auto_reset_lower_interrupted_first (st : State) :
  _first (_auto_reset_lower_interrupted st) = _first st.
Proof. unfold _auto_reset_lower_interrupted. by destruct (_ ≫= _). Qed.

Lemma auto_reset_upper_interrupted_first (st : State) :
  _first (_auto_reset_upper_interrupted st) = _first st.
Proof. unfold _auto_reset_upper_interrupted. by destruct (_ ≫= _). Qed.

(** X10.  Once [_first] is cleared no method sets it again: the branch of
    [_update_ranges] that overrides both thresholds runs at most once in
    the life of an object. *)
Theorem first_stays_cleared (st st' : State) :
  _first st = false →
  (update_pipeline st = Ok st' → _first st' = false)
  ∧ (update_data st = Ok st' → _first st' = false)
  ∧ (∀ notify v, assign_lower_threshold notify v st = Ok st' →
       _first st' = false)
  ∧ (∀ notify v, assign_upper_threshold notify v st = Ok st' →
       _first st' = false)
  ∧ (∀ value, assign_auto_reset_lower value st = Ok st' →
       _first st' = false)
  ∧ (∀ value, assign_auto_reset_upper value st = Ok st' →
       _first st' = false)
  ∧ (∀ value, assign_filter_type value st = Ok st' → _first st' = false)
  ∧ (_threshold_filter_edited st = Ok st' → _first st' = false).
Proof.
  intros Hfirst. repeat split.
  - unfold update_pipeline. destruct (bool_decide _); [by intros [= <-]|].
    destruct (upstream st) as [input|e]; cbn; [|done].
    destruct (_update_ranges _) as [st1|e] eqn:Hrun; cbn; [|done].
    intros [= <-]. cbn.
    apply (update_ranges_step _ st1 Hrun).
    by destruct (_get_threshold_filter st).
  - unfold update_data. destruct (bool_decide _); [by intros [= <-]|].
    destruct (_update_ranges st) as [st1|e] eqn:Hrun; cbn; [|done].
    intros [= <-]. cbn. by apply (update_ranges_step st st1 Hrun).
  - intros notify v Hrun.
    apply assign_lower_threshold_effect in Hrun as (_ & _ & _ & _ & _ & ->).
    exact Hfirst.
  - intros notify v Hrun.
    apply assign_upper_threshold_effect in Hrun as (_ & _ & _ & _ & _ & ->).
    exact Hfirst.
  - intros value. unfold assign_auto_reset_lower.
    destruct (bool_decide (value ≠ _)); [|by intros [= <-]].
    destruct (_auto_reset_lower_changed value _) as [st1|e] eqn:Hrun;
      intros [= <-].
    + by rewrite (auto_reset_lower_changed_first _ _ _ Hrun).
    + cbn. by rewrite auto_reset_lower_interrupted_first.
  - intros value. unfold assign_auto_reset_upper.
    destruct (bool_decide (value ≠ _)); [|by intros [= <-]].
    destruct (_auto_reset_upper_changed value _) as [st1|e] eqn:Hrun;
      intros [= <-].
    + by rewrite (auto_reset_upper_changed_first _ _ _ Hrun).
    + cbn. by rewrite auto_reset_upper_interrupted_first.
  - intros value. unfold assign_filter_type.
    destruct (bool_decide _); [|by intros [= <-]].
    destruct (_filter_type_changed value _) as [st1|e] eqn:Hrun;
      intros [= <-]; [|done].
    revert Hrun. unfold _filter_type_changed.
    destruct value;
      (destruct (_threshold_filter_changed _ _ _) as [st2|e] eqn:Hrun;
       intros [= <-];
       [by rewrite (threshold_filter_changed_first _ _ _ _ Hrun)|done]).
  - unfold _threshold_filter_edited. intros [= <-].
    by destruct (_get_threshold_filter st).
Qed.

(** X11.  A plain assignment of a threshold keeps the active algorithm in
    step with the object: if its bounds were the two thresholds before,
    they are the two thresholds afterwards; and an assignment that changes
    the value puts them in step whatever was the case before. *)
Theorem plain_assignment_keeps_sync (st st' : State) (v : V) :
  (assign_lower_threshold true v st = Ok st' →
     (in_sync st ∨ v ≠ lower_threshold st) → in_sync st')
  ∧ (assign_upper_threshold true v st = Ok st' →
       (in_sync st ∨ v ≠ upper_threshold st) → in_sync st').
Proof.
  unfold assign_lower_threshold, assign_upper_threshold,
    _lower_threshold_changed, _upper_threshold_changed, in_sync,
    _get_threshold_filter, read_lower_threshold, read_upper_threshold.
  destruct st as [ins outs ft lt ut arl aru dmin dmax th thp fst lg].
  cbn. destruct (in_range dmin dmax v) eqn:Hin; [|done].
  pose proof (range_read_accepted _ _ _ Hin) as Hread. cbn. split.
  - destruct (decide (v = lt)) as [->|Hne].
    + rewrite bool_decide_ne_same. intros [= <-] [Hs|Hs]; [|done].
      destruct ft; exact Hs.
    + rewrite (bool_decide_eq_true_2 (v ≠ lt)) by done.
      destruct ft; intros [= <-] _; cbn; by rewrite Hread.
  - destruct (decide (v = ut)) as [->|Hne].
    + rewrite bool_decide_ne_same. intros [= <-] [Hs|Hs]; [|done].
      destruct ft; exact Hs.
    + rewrite (bool_decide_eq_true_2 (v ≠ ut)) by done.
      destruct ft; intros [= <-] _; cbn; by rewrite Hread.
Qed.

(** X12.  Popping the derived entries is safe on any dict: a dict that has
    none of the three names comes back unchanged, and popping twice is
    popping once. *)
Theorem pop_derived_safe (d : gmap string (PyVal V)) :
  (d !! "_first" = None → d !! "_data_min" = None →
   d !! "_data_max" = None → pop_derived d = d)
  ∧ pop_derived (pop_derived d) = pop_derived d.
Proof.
  assert (∀ m : gmap string (PyVal V),
            m !! "_first" = None → m !! "_data_min" = None →
            m !! "_data_max" = None → pop_derived m = m) as Hsame.
  { intros m H1 H2 H3. unfold pop_derived. cbn.
    rewrite (delete_id m "_first") by done.
    rewrite (delete_id m "_data_min") by done.
    by rewrite (delete_id m "_data_max"). }
  split; [apply Hsame|].
  destruct (pop_derived_absent d) as (? & ? & ?). by apply Hsame.
Qed.

(** X13.  A change of filter type on an attached object leaves the
    algorithm that stops being active exactly as it was, and changes
    neither thresholds, cached range, flags nor inputs. *)
Theorem filter_type_switch_frame
    (st st' : State) (input : Dataset) (value : FilterType) :
  upstream st = Ok input →
  value ≠ filter_type st →
  assign_filter_type value st = Ok st' →
  algo (_get_threshold_filter st) st' = algo (_get_threshold_filter st) st
  ∧ _get_threshold_filter st' ≠ _get_threshold_filter st
  ∧ lower_threshold st' = lower_threshold st
  ∧ upper_threshold st' = upper_threshold st
  ∧ _data_min st' = _data_min st
  ∧ _data_max st' = _data_max st
  ∧ auto_reset_lower st' = auto_reset_lower st
  ∧ auto_reset_upper st' = auto_reset_upper st
  ∧ inputs st' = inputs st
  ∧ _first st' = _first st.
Proof.
  intros Hup Hne.
  pose proof (upstream_inputs st input Hup) as Hin.
  unfold assign_filter_type, _filter_type_changed, _threshold_filter_changed.
  rewrite (bool_decide_eq_true_2 _ Hne).
  assert (upstream (with_filter_type value st) = Ok input) as -> by done.
  assert (inputs (with_filter_type value st) = inputs st) as -> by done.
  rewrite Hin. clear Hup Hin.
  destruct st as [ins outs ft lt ut arl aru dmin dmax th thp fst lg].
  destruct value, ft; try done; cbv -[app fmap engine in_range range_read];
    intros [= <-]; done.
Qed.

End MoreThresholdFacts.

(** ** The adder nodes *)

Section AdderFacts.

Import Stdlib.Strings.Ascii.
Import Adder.

Context {T : Type} `{EqDecision T}.
Variable read_actions : MenuHelper → MenuHelper.
Variable build_filter_actions : MenuHelper → MenuHelper.

Local Abbreviation Node := (ListAdder (T := T)).

Lemma replace_amp_chars (s : string) :
  String.list_ascii_of_string (replace_amp s)
  = filter (λ c, c ≠ "&"%char) (String.list_ascii_of_string s).
Proof.
  induction s as [|c rest IH]; [done|].
  cbn [replace_amp String.list_ascii_of_string].
  destruct (Ascii.eqb_spec c "&"%char) as [->|Hne].
  - rewrite filter_cons_False by (by intros ?). exact IH.
  - cbn [String.list_ascii_of_string].
    rewrite filter_cons_True by done. by rewrite IH.
Qed.

Lemma replace_amp_none (s : string) :
  "&"%char ∉ String.list_ascii_of_string (replace_amp s).
Proof.
  rewrite replace_amp_chars. intros Hin.
  apply list_elem_of_filter in Hin as [Hne _]. done.
Qed.

(** X14.  [replace('&', '')] keeps the characters other than ['&'] in
    their order and drops every ['&']: the result has none, is not
    longer than the text, and a text without ['&'] is returned as it
    is. *)
Theorem replace_amp_drops_ampersands (s : string) :
  String.list_ascii_of_string (replace_amp s)
    = filter (λ c, c ≠ "&"%char) (String.list_ascii_of_string s)
  ∧ ("&"%char ∉ String.list_ascii_of_string (replace_amp s))
  ∧ (String.length (replace_amp s) ≤ String.length s)
  ∧ replace_amp (replace_amp s) = replace_amp s
  ∧ ("&"%char ∉ String.list_ascii_of_string s → replace_amp s = s).
Proof.
  assert (∀ t, "&"%char ∉ String.list_ascii_of_string t → replace_amp t = t)
    as Hsame.
  { induction t as [|c rest IH]; [done|]. cbn. intros Hnot.
    apply not_elem_of_cons in Hnot as [Hc Hrest].
    destruct (Ascii.eqb_spec c "&"%char) as [->|_]; [done|].
    by rewrite IH. }
  pose proof (replace_amp_none s) as Hnone.
  split; [apply replace_amp_chars|]. split; [exact Hnone|]. split.
  - clear. induction s as [|c rest IH]; [done|]. cbn [replace_amp].
    destruct (Ascii.eqb c "&"%char); cbn [String.length]; lia.
  - split; [by apply Hsame|apply Hsame].
Qed.

(** X15.  [ListAdderNode._object_changed] with an object builds one item
    per entry of [items_list_source], in the same order: the item carries
    the entry's id and help text, points at the object, and its name and
    button label are the entry's menu name without ['&'].  With [None]
    the list of items is emptied.  The node's own [object] and
    [items_list_source] are not touched. *)
Theorem object_changed_lists_source
    (self : Node) (value : T) (helper : MenuHelper) :
  let self' :=
    (ListAdderNode_object_changed read_actions self (Some (value, helper))).1
  in
  id <$> items_list self' = md_id <$> items_list_source self
  ∧ documentation <$> items_list self' = help <$> items_list_source self
  ∧ name <$> items_list self'
    = (λ src, replace_amp (menu_name src)) <$> items_list_source self
  ∧ Forall (λ it, item_object it = value ∧ add_label it = name it
                  ∧ "&"%char ∉ String.list_ascii_of_string (name it))
      (items_list self')
  ∧ length (items_list self') = length (items_list_source self)
  ∧ object self' = object self
  ∧ items_list_source self' = items_list_source self
  ∧ items_list (ListAdderNode_object_changed read_actions self None).1 = [].
Proof.
  cbn. rewrite <- !list_fmap_compose, length_fmap.
  repeat split; try done.
  apply Forall_fmap, Forall_forall. intros src _. cbn.
  repeat split.
  apply replace_amp_none.
Qed.

(** X16.  Which items are enabled.  A [SourceAdderNode] enables every
    item.  The other classes enable an item exactly when the menu helper,
    as reading its actions leaves it, has a method [check_<id>] whose call
    returns a true value; an entry without such a method gives a disabled
    item, not an error. *)
Theorem object_changed_enabled
    (self : Node) (value : T) (helper : MenuHelper) :
  let self' :=
    (ListAdderNode_object_changed read_actions self (Some (value, helper))).1
  in
  (node_class self = SourceAdderNode →
   Forall (λ it, enabled it = true) (items_list self'))
  ∧ (node_class self ≠ SourceAdderNode →
     enabled <$> items_list self'
     = (λ src,
          bool_decide
            (read_actions helper !! ("check_" +:+ md_id src) = Some true))
       <$> items_list_source self)
  ∧ (node_class self ≠ SourceAdderNode →
     ∀ i src it,
       items_list_source self !! i = Some src →
       items_list self' !! i = Some it →
       read_actions helper !! ("check_" +:+ md_id src) = None →
       enabled it = false).
Proof.
  cbn. split; [|split].
  - intros ->. apply Forall_fmap, Forall_forall. by intros src _.
  - intros Hcls. rewrite <- list_fmap_compose. apply list_fmap_ext.
    intros _ src _. cbn. unfold _is_action_suitable, check_name.
    destruct (node_class self); try done;
      destruct (read_actions helper !! _) as [[]|]; done.
  - intros Hcls i src it Hsrc Hit Hnone.
    rewrite list_lookup_fmap, Hsrc in Hit. cbn in Hit. simplify_eq. cbn.
    unfold _is_action_suitable, check_name.
    destruct (node_class self); try done; by rewrite Hnone.
Qed.

(** X17.  [_get_scene] reads the attribute [obj], which [AdderNode] does
    not declare (its trait is called [object]): on a node that was given
    no such attribute it raises [AttributeError] whatever the node points
    at.  It returns a scene only when [obj] is an object that is not an
    adder node and whose [scene] attribute holds one; it returns [None]
    when [obj] is [None], an adder node, or another object whose [scene]
    is [None]; and it raises [AttributeError] when [obj] is another
    object without a [scene] attribute. *)
Theorem get_scene_reads_obj
    {Scene : Type} (attributes : gmap string (Pointee Scene)) :
  (attributes !! "obj" = None →
   _get_scene attributes = AttributeError "obj")
  ∧ (∀ scene,
       _get_scene attributes = Got (Some scene)
       ↔ attributes !! "obj" = Some (IsObject (Some (Some scene))))
  ∧ (_get_scene attributes = Got None
     ↔ attributes !! "obj" = Some IsNone
       ∨ attributes !! "obj" = Some IsAdderNode
       ∨ attributes !! "obj" = Some (IsObject (Some None)))
  ∧ (_get_scene attributes = AttributeError "scene"
     ↔ attributes !! "obj" = Some (IsObject None)).
Proof.
  unfold _get_scene. split; [by intros ->|].
  destruct (attributes !! "obj") as [[| |[[sc|]|]]|].
  all: split; [intros sc'; split; [try done|try done]|].
  all: try (intros [= ->]; done).
  all: split; split; try done.
  all: try (intros [?|[?|?]]; done).
  all: intros _; auto.
Qed.

(** X18.  Pressing [add] on an item that [_object_changed] built calls
    the helper method named by the id of the registry entry the item was
    built from, and raises [AttributeError] when the helper has no method
    of that name. *)
Theorem add_fired_calls_entry_action
    (self : Node) (value : T) (helper helper' : MenuHelper)
    (i : nat) (it : DocumentedItem) :
  items_list
    (ListAdderNode_object_changed read_actions self (Some (value, helper))).1
    !! i = Some it →
  ∃ src,
    items_list_source self !! i = Some src
    ∧ (is_Some (helper' !! md_id src) →
       _add_fired it helper' = Got (md_id src))
    ∧ (helper' !! md_id src = None →
       _add_fired it helper' = AttributeError (md_id src)).
Proof.
  cbn. rewrite list_lookup_fmap.
  destruct (items_list_source self !! i) as [src|]; [|done].
  cbn. intros [= <-]. exists src. split; [done|].
  unfold _add_fired. cbn. split.
  - by intros [r ->].
  - by intros ->.
Qed.

(** X20.  [ModuleFilterAdderNode._object_changed] hands its object to the
    filters node and then to the modules node.  A child that pointed
    elsewhere rebuilds its items from its own source list; between the
    two, the helper has its actions read, its filter actions built and
    its actions read again.  Children that already point at the object
    are left alone, and so is the helper. *)
Theorem module_filter_object_changed
    (self : ModuleFilterAdder (T := T)) (t : T) (helper : MenuHelper) :
  mf_object self = Some t →
  node_class (mf_filters self) = FilterAdderNode →
  node_class (mf_modules self) = ModuleAdderNode →
  (object (mf_filters self) ≠ Some t →
   object (mf_modules self) ≠ Some t →
   let r := ModuleFilterAdderNode_object_changed read_actions
              build_filter_actions self helper in
   mf_object r.1 = Some t
   ∧ object (mf_filters r.1) = Some t
   ∧ object (mf_modules r.1) = Some t
   ∧ id <$> items_list (mf_filters r.1)
     = md_id <$> items_list_source (mf_filters self)
   ∧ id <$> items_list (mf_modules r.1)
     = md_id <$> items_list_source (mf_modules self)
   ∧ r.2 = Some (read_actions (build_filter_actions (read_actions helper))))
  ∧ (object (mf_filters self) = Some t →
     object (mf_modules self) = Some t →
     ModuleFilterAdderNode_object_changed read_actions
       build_filter_actions self helper
     = (self, Some helper)).
Proof.
  intros Hobj Hf Hm. unfold ModuleFilterAdderNode_object_changed.
  rewrite Hobj. unfold assign_object. cbn. split.
  - intros Hfo Hmo.
    rewrite (bool_decide_eq_true_2 (Some t ≠ object (mf_filters self)))
      by (intros Heq; by apply Hfo).
    unfold _object_changed. cbn. rewrite Hf. cbn.
    rewrite (bool_decide_eq_true_2 (Some t ≠ object (mf_modules self)))
      by (intros Heq; by apply Hmo).
    cbn. rewrite Hm. cbn. rewrite <- !list_fmap_compose. done.
  - intros Hfo Hmo. rewrite Hfo.
    rewrite bool_decide_eq_false_2 by (by intros ?). cbn.
    rewrite Hmo. rewrite bool_decide_eq_false_2 by (by intros ?). cbn.
    destruct self as [o [? ? ? ?] [? ? ? ?]]. cbn in *. by subst.
Qed.

End AdderFacts.

(** ** The further theorems on concrete objects *)

Lemma data_range_point_then_cell_witness :
  upstream (Scenario.new_Threshold [[Scenario.cell_mesh 3 7]])
    = Ok (Scenario.cell_mesh 3 7)
  ∧ _get_data_range (Scenario.new_Threshold [[Scenario.cell_mesh 3 7]])
    = Ok [3%Z; 7%Z]
  ∧ ∃ st',
      _update_ranges (Scenario.new_Threshold [[Scenario.cell_mesh 3 7]])
      = Ok st'
      ∧ _data_min st' = 3%Z ∧ _data_max st' = 7%Z
      ∧ lower_threshold st' = 3%Z ∧ upper_threshold st' = 7%Z.
Proof.
  destruct (data_range_point_then_cell
              (Scenario.new_Threshold [[Scenario.cell_mesh 3 7]])
              (Scenario.cell_mesh 3 7) eq_refl) as (_ & _ & Hsel).
  destruct (Hsel 3%Z 7%Z eq_refl) as (Hdr & Heffect & Hreturns).
  split; [reflexivity|]. split; [exact Hdr|].
  destruct Hreturns as [st' Hrun]; [by vm_compute|].
  exists st'. split; [exact Hrun|].
  pose proof (Heffect st' Hrun) as Hfields.
  change (_first (Scenario.new_Threshold [[Scenario.cell_mesh 3 7]]))
    with true in Hfields.
  destruct Hfields as (? & ? & ? & ? & _). done.
Defined.

Lemma update_ranges_at_most_one_execution_witness :
  _update_ranges Scenario.both_ends_moved
    = Ok (Scenario.after (_update_ranges Scenario.both_ends_moved))
  ∧ quiet_or_once Scenario.both_ends_moved
      (Scenario.after (_update_ranges Scenario.both_ends_moved)).
Proof.
  assert (_update_ranges Scenario.both_ends_moved
          = Ok (Scenario.after (_update_ranges Scenario.both_ends_moved)))
    as Hrun by (vm_compute; reflexivity).
  split; [exact Hrun|].
  exact (proj1 (update_ranges_at_most_one_execution _ _ Hrun)).
Defined.

Lemma first_update_overrides_thresholds_witness :
  auto_reset_lower Cases.flags_off = false
  ∧ lower_threshold (Scenario.after (_update_ranges Cases.flags_off)) = 0%Z
  ∧ upper_threshold (Scenario.after (_update_ranges Cases.flags_off))
    = 100%Z.
Proof.
  assert (_update_ranges Cases.flags_off
          = Ok (Scenario.after (_update_ranges Cases.flags_off)))
    as Hrun by (vm_compute; reflexivity).
  destruct (first_update_overrides_thresholds Cases.flags_off
              (Scenario.after (_update_ranges Cases.flags_off)) 0%Z 100%Z)
    as (_ & _ & Hlo & Hhi & _); [by vm_compute|by vm_compute|exact Hrun|].
  split; [by vm_compute|]. split; [exact Hlo|exact Hhi].
Defined.

Lemma later_updates_follow_flags_witness :
  lower_threshold (Scenario.after (_update_ranges Cases.stale_upper)) = 50%Z
  ∧ upper_threshold (Scenario.after (_update_ranges Cases.stale_upper))
    = 20%Z
  ∧ read_upper_threshold (Scenario.after (_update_ranges Cases.stale_upper))
    = 50%Z.
Proof.
  assert (_update_ranges Cases.stale_upper
          = Ok (Scenario.after (_update_ranges Cases.stale_upper)))
    as Hrun by (vm_compute; reflexivity).
  destruct (later_updates_follow_flags Cases.stale_upper
              (Scenario.after (_update_ranges Cases.stale_upper))
              50%Z 100%Z)
    as (Hlo & Hhi); [by vm_compute|by vm_compute|exact Hrun|].
  change (auto_reset_lower Cases.stale_upper) with true in Hlo.
  change (auto_reset_upper Cases.stale_upper) with false in Hhi.
  destruct Hlo as [Hmin Hlo]. destruct Hhi as (_ & Hhi & Hread).
  split; [exact Hlo|]. split; [exact Hhi|].
  rewrite Hread, Hmin. by vm_compute.
Defined.

Lemma update_data_effect_witness :
  inputs Scenario.both_ends_moved ≠ []
  ∧ same_settings Scenario.both_ends_moved
      (Scenario.after (update_data Scenario.both_ends_moved)).
Proof.
  assert (update_data Scenario.both_ends_moved
          = Ok (Scenario.after (update_data Scenario.both_ends_moved)))
    as Hrun by (vm_compute; reflexivity).
  assert (inputs Scenario.both_ends_moved ≠ []) as Hin by done.
  split; [exact Hin|].
  exact (proj1 (update_data_effect _ _ Hin Hrun)).
Defined.

Lemma update_pipeline_effect_witness :
  upstream Scenario.both_ends_moved = Ok (Scenario.point_mesh 10 90)
  ∧ outputs (Scenario.after (update_pipeline Scenario.both_ends_moved))
    = [OutputOf (_get_threshold_filter Scenario.both_ends_moved)].
Proof.
  assert (update_pipeline Scenario.both_ends_moved
          = Ok (Scenario.after (update_pipeline Scenario.both_ends_moved)))
    as Hrun by (vm_compute; reflexivity).
  assert (upstream Scenario.both_ends_moved = Ok (Scenario.point_mesh 10 90))
    as Hup by (vm_compute; reflexivity).
  split; [exact Hup|].
  exact (proj1 (proj2 (update_pipeline_effect _ _ _ Hup Hrun))).
Defined.

Lemma missing_upstream_dataset_raises_witness :
  inputs Cases.no_dataset = [[]]
  ∧ update_pipeline Cases.no_dataset = Raise IndexError
  ∧ update_data Cases.no_dataset = Raise IndexError.
Proof.
  destruct (missing_upstream_dataset_raises Cases.no_dataset [] eq_refl)
    as (Hp & Hd & _).
  split; [reflexivity|]. split; [exact Hp|exact Hd].
Defined.

Lemma update_ranges_errors_witness :
  _update_ranges Cases.moved_above = Raise TraitError
  ∧ ∃ input, upstream Cases.moved_above = Ok input.
Proof.
  assert (_update_ranges Cases.moved_above = Raise TraitError)
    as Hrun by (vm_compute; reflexivity).
  split; [exact Hrun|].
  destruct (update_ranges_errors _ _ Hrun) as [[Hno _]|[_ Hup]];
    [discriminate Hno|exact Hup].
Defined.

Lemma only_lower_reset_witness :
  ∃ st',
    _update_ranges Cases.stale_upper = Ok st'
    ∧ lower_threshold st' = 50%Z
    ∧ upper_threshold st' = 20%Z
    ∧ alg_lower (algo Ref_threshold st') = 50%Z
    ∧ alg_upper (algo Ref_threshold st') = 50%Z.
Proof.
  destruct (only_lower_reset Cases.stale_upper 50%Z 100%Z)
    as (st' & Hrun & _ & Hlo & _ & _ & Hhi & _ & _ & Hnew);
    [by vm_compute..|].
  destruct Hnew as (_ & Hal & Hau); [by vm_compute|].
  exists st'. repeat split; assumption.
Defined.

Lemma auto_reset_on_snaps_bound_witness :
  _get_data_range Cases.stale_upper = Ok [50%Z; 100%Z]
  ∧ ∃ st',
      _auto_reset_lower_changed true Cases.stale_upper = Ok st'
      ∧ lower_threshold st' = 50%Z
      ∧ upper_threshold st' = 20%Z
      ∧ alg_lower (algo Ref_threshold st') = 50%Z
      ∧ alg_upper (algo Ref_threshold st') = 50%Z.
Proof.
  assert (_get_data_range Cases.stale_upper = Ok [50%Z; 100%Z])
    as Hdr by (vm_compute; reflexivity).
  split; [exact Hdr|].
  assert (_auto_reset_lower_changed true Cases.stale_upper
          = Ok (Scenario.after
                  (_auto_reset_lower_changed true Cases.stale_upper)))
    as Hrun by (vm_compute; reflexivity).
  destruct (auto_reset_on_snaps_bound Cases.stale_upper 50%Z 100%Z Hdr)
    as (Hlower & _).
  destruct (Hlower _ Hrun) as (_ & _ & Hlo & _ & Hhi & _ & _ & Hnew).
  destruct Hnew as (Hal & Hau & _); [by vm_compute|].
  eexists. split; [exact Hrun|]. repeat split; assumption.
Defined.

Lemma first_stays_cleared_witness :
  _first Scenario.both_ends_moved = false
  ∧ _first (Scenario.after (update_data Scenario.both_ends_moved)) = false.
Proof.
  assert (_first Scenario.both_ends_moved = false)
    as Hfirst by (vm_compute; reflexivity).
  assert (update_data Scenario.both_ends_moved
          = Ok (Scenario.after (update_data Scenario.both_ends_moved)))
    as Hrun by (vm_compute; reflexivity).
  split; [exact Hfirst|].
  exact (proj1 (proj2 (first_stays_cleared _ _ Hfirst)) Hrun).
Defined.

Lemma plain_assignment_keeps_sync_witness :
  in_sync Scenario.initialised
  ∧ in_sync
      (Scenario.after (assign_lower_threshold true 50%Z Scenario.initialised)).
Proof.
  assert (in_sync Scenario.initialised) as Hsync by (by vm_compute).
  assert (assign_lower_threshold true 50%Z Scenario.initialised
          = Ok (Scenario.after
                  (assign_lower_threshold true 50%Z Scenario.initialised)))
    as Hrun by (vm_compute; reflexivity).
  split; [exact Hsync|].
  exact (proj1 (plain_assignment_keeps_sync _ _ 50%Z) Hrun (or_introl Hsync)).
Defined.

Lemma pop_derived_safe_witness :
  pop_derived (V := Z) {[ "lower_threshold" := PyFloat 3%Z ]}
  = {[ "lower_threshold" := PyFloat 3%Z ]}.
Proof.
  apply (proj1 (pop_derived_safe {[ "lower_threshold" := PyFloat 3%Z ]}));
    by vm_compute.
Defined.

Lemma filter_type_switch_frame_witness :
  upstream Scenario.initialised = Ok (Scenario.point_mesh 0 100)
  ∧ algo (_get_threshold_filter Scenario.initialised)
      (Scenario.after (assign_filter_type points Scenario.initialised))
    = algo (_get_threshold_filter Scenario.initialised)
        Scenario.initialised.
Proof.
  assert (upstream Scenario.initialised = Ok (Scenario.point_mesh 0 100))
    as Hup by (vm_compute; reflexivity).
  assert (assign_filter_type points Scenario.initialised
          = Ok (Scenario.after
                  (assign_filter_type points Scenario.initialised)))
    as Hrun by (vm_compute; reflexivity).
  assert (points ≠ filter_type Scenario.initialised) as Hne by done.
  split; [exact Hup|].
  exact (proj1 (filter_type_switch_frame _ _ _ points Hup Hne Hrun)).
Defined.

Lemma replace_amp_drops_ampersands_witness :
  Adder.replace_amp "Open" = "Open"
  ∧ Adder.replace_amp "&Open && close" = "Open  close".
Proof.
  split; [|reflexivity].
  apply (proj2 (proj2 (proj2 (proj2
           (replace_amp_drops_ampersands "Open"))))).
  intros Hin. repeat (apply elem_of_cons in Hin as [Hin|Hin]; [done|]).
  by apply elem_of_nil in Hin.
Defined.

Lemma object_changed_enabled_witness :
  Adder.node_class Cases.filter_node ≠ Adder.SourceAdderNode
  ∧ Adder.enabled
      <$> Adder.items_list
            (Adder.ListAdderNode_object_changed id Cases.filter_node
               (Some (7, Cases.helper))).1
    = [true; false].
Proof.
  assert (Adder.node_class Cases.filter_node ≠ Adder.SourceAdderNode)
    as Hcls by done.
  split; [exact Hcls|].
  rewrite (proj1 (proj2 (object_changed_enabled id Cases.filter_node 7
                           Cases.helper)) Hcls).
  by vm_compute.
Defined.

Lemma get_scene_reads_obj_witness :
  Adder._get_scene (Scene := nat) ∅ = Adder.AttributeError "obj"
  ∧ Adder._get_scene (Scene := nat)
      {[ "obj" := Adder.IsObject (Some None) ]}
    = Adder.Got None.
Proof.
  split.
  - exact (proj1 (get_scene_reads_obj (Scene := nat) ∅) eq_refl).
  - apply (proj1 (proj2 (proj2 (get_scene_reads_obj (Scene := nat) _)))).
    right. right. by vm_compute.
Defined.

Lemma add_fired_calls_entry_action_witness :
  ∃ it,
    Adder.items_list
      (Adder.ListAdderNode_object_changed id Cases.filter_node
         (Some (7, Cases.helper))).1 !! 0 = Some it
    ∧ Adder._add_fired it Cases.helper = Adder.Got "Threshold".
Proof.
  eexists. split; [reflexivity|].
  destruct (add_fired_calls_entry_action id Cases.filter_node 7
              Cases.helper Cases.helper 0 _ eq_refl)
    as (src & Hsrc & Hcall & _).
  injection Hsrc as <-. apply Hcall. exists false. by vm_compute.
Defined.

Lemma module_filter_object_changed_witness :
  Adder.mf_object Cases.module_filter_node = Some 7
  ∧ Adder.id
      <$> Adder.items_list
            (Adder.mf_filters
               (Adder.ModuleFilterAdderNode_object_changed id id
                  Cases.module_filter_node Cases.helper).1)
    = Adder.md_id
        <$> Adder.items_list_source
              (Adder.mf_filters Cases.module_filter_node).
Proof.
  split; [reflexivity|].
  destruct (module_filter_object_changed id id Cases.module_filter_node 7
              Cases.helper eq_refl eq_refl eq_refl) as [Hnew _].
  destruct Hnew as (_ & _ & _ & Hids & _); [done|done|].
  exact Hids.
Defined.
